(** * Injection-point resolution of @loopback/context

    A shallow embedding of three source files of the package:
    - [binding-filter.ts]: [isBindingAddress], [filterByTag], [filterByKey],
      [wildcardToRegExp];
    - [inject.ts]: the [@inject] family of decorators and their resolvers;
    - [inject-config.ts]: the [@config] family and [ConfigView].

    JavaScript strings are sequences of code units; they are modelled by
    [string], one [ascii] per code unit. *)

From Stdlib Require Import String Ascii List ZArith Bool Lia.
From stdpp Require Import base option list strings gmap.

Local Open Scope string_scope.
Local Open Scope list_scope.

(** ** JavaScript values *)

Module JS.

(** The numbers the development needs: the integers and [NaN], the one
    number that is not equal to itself. *)
Inductive Number :=
| NaN
| Int (z : Z).

#[local] Set Warnings "-register-all".

(** An object carries its identity ([addr]) next to its own enumerable
    properties: [===] on objects compares identities. *)
Inductive Value :=
| VUndefined
| VNull
| VBool (b : bool)
| VNumber (n : Number)
| VString (s : string)
| VObject (addr : nat) (props : gmap string Value).

(** [a === b] *)
Definition strictEq (a b : Value) : bool :=
  match a, b with
  | VUndefined, VUndefined => true
  | VNull, VNull => true
  | VBool x, VBool y => Bool.eqb x y
  | VNumber (Int x), VNumber (Int y) => Z.eqb x y
  | VNumber _, VNumber _ => false
  | VString x, VString y => String.eqb x y
  | VObject x _, VObject y _ => Nat.eqb x y
  | _, _ => false
  end.

(** [a !== b] *)
Definition strictNe (a b : Value) : bool := negb (strictEq a b).

(** [o[p]] on a plain object: [undefined] for an absent property. *)
Definition getProp (o : gmap string Value) (p : string) : Value :=
  default VUndefined (o !! p).

(** Exceptions, by constructor name. *)
Inductive Exn :=
| Error (message : string)
| TypeError (message : string)
| SyntaxError (message : string).

(** A completion: a normal value or a thrown exception. *)
Inductive Result (A : Type) :=
| Ok (a : A)
| Throw (e : Exn).
Arguments Ok {A} a.
Arguments Throw {A} e.

End JS.
Import JS.

(** ** Regular expressions

    The fragment of the pattern grammar of [RegExp] that
    [wildcardToRegExp] writes: assertions [^] and [$], pattern characters,
    [.], identity escapes, character classes of plain characters, and the
    greedy quantifiers [*], [+] and [?] on one atom. *)

Module RegExp.

Inductive Atom :=
| PatternCharacter (c : ascii)
| AtomDot
| IdentityEscape (c : ascii)
| CharacterClass (negated : bool) (members : list ascii).

Inductive Quantifier := QOne | QStar | QPlus | QOpt.

Inductive Term :=
| AssertBegin
| AssertEnd
| TermAtom (a : Atom) (q : Quantifier).

Abbreviation t := (list Term).

(** *** [new RegExp(source)]

    The pattern is read one character at a time. *)

Inductive PState :=
| PTerm                                        (* a term may start *)
| PEscape                                      (* after a backslash *)
| PClassOpen                                   (* after [ *)
| PClassBody (negated : bool) (ms : list ascii) (* inside a class *)
| PAtom (a : Atom).                            (* after an atom: a quantifier may follow *)

Definition isOneOf (chars : string) (c : ascii) : bool :=
  existsb (Ascii.eqb c) (list_ascii_of_string chars).

Definition isAlnum (c : ascii) : bool :=
  let n := nat_of_ascii c in
  (((48 <=? n) && (n <=? 57)) || ((65 <=? n) && (n <=? 90)) ||
   ((97 <=? n) && (n <=? 122)) || (n =? 95))%nat.

(** A character where a term starts. *)
Definition startTerm (c : ascii) : option (PState * list Term) :=
  if Ascii.eqb c "^" then Some (PTerm, [AssertBegin])
  else if Ascii.eqb c "$" then Some (PTerm, [AssertEnd])
  else if Ascii.eqb c "\" then Some (PEscape, [])
  else if Ascii.eqb c "[" then Some (PClassOpen, [])
  else if Ascii.eqb c "." then Some (PAtom AtomDot, [])
  else if isOneOf "*+?{}()|]" c then None
  else Some (PAtom (PatternCharacter c), []).

Definition classMember (negated : bool) (ms : list ascii) (c : ascii)
  : option (PState * list Term) :=
  if Ascii.eqb c "]" then Some (PAtom (CharacterClass negated ms), [])
  else if isOneOf "\-" c then None
  else Some (PClassBody negated (ms ++ [c]), []).

Definition step (st : PState) (c : ascii) : option (PState * list Term) :=
  match st with
  | PTerm => startTerm c
  | PEscape =>
      if isAlnum c then None else Some (PAtom (IdentityEscape c), [])
  | PClassOpen =>
      if Ascii.eqb c "^" then Some (PClassBody true [], [])
      else classMember false [] c
  | PClassBody negated ms => classMember negated ms c
  | PAtom a =>
      if Ascii.eqb c "*" then Some (PTerm, [TermAtom a QStar])
      else if Ascii.eqb c "+" then Some (PTerm, [TermAtom a QPlus])
      else if Ascii.eqb c "?" then Some (PTerm, [TermAtom a QOpt])
      else match startTerm c with
           | Some (st', out) => Some (st', TermAtom a QOne :: out)
           | None => None
           end
  end.

Definition finish (st : PState) : option (list Term) :=
  match st with
  | PTerm => Some []
  | PAtom a => Some [TermAtom a QOne]
  | _ => None
  end.

Fixpoint parseFrom (st : PState) (s : string) : option (list Term) :=
  match s with
  | EmptyString => finish st
  | String c s' =>
      match step st c with
      | Some (st', out) =>
          match parseFrom st' s' with
          | Some ts => Some (out ++ ts)
          | None => None
          end
      | None => None
      end
  end.

(** [None]: the pattern is not in the fragment (or is a SyntaxError). *)
Definition create (source : string) : option t := parseFrom PTerm source.

(** *** Matching

    Matchers in continuation style: a state is the index reached and the
    input that remains. *)

Definition isLineTerminator (c : ascii) : bool :=
  ((nat_of_ascii c =? 10) || (nat_of_ascii c =? 13))%nat.

Definition atomMatches (a : Atom) (c : ascii) : bool :=
  match a with
  | PatternCharacter x => Ascii.eqb c x
  | AtomDot => negb (isLineTerminator c)
  | IdentityEscape x => Ascii.eqb c x
  | CharacterClass negated ms => xorb negated (existsb (Ascii.eqb c) ms)
  end.

Definition Continuation := nat -> string -> bool.

Fixpoint repeatMatcher (a : Atom) (k : Continuation) (i : nat) (s : string)
  : bool :=
  match s with
  | String c s' => (atomMatches a c && repeatMatcher a k (S i) s') || k i s
  | EmptyString => k i s
  end.

Definition atomMatcher (a : Atom) (k : Continuation) (i : nat) (s : string)
  : bool :=
  match s with
  | String c s' => atomMatches a c && k (S i) s'
  | EmptyString => false
  end.

Fixpoint matchTerms (ts : list Term) (k : Continuation) (i : nat) (s : string)
  : bool :=
  match ts with
  | [] => k i s
  | AssertBegin :: ts' => (i =? 0)%nat && matchTerms ts' k i s
  | AssertEnd :: ts' =>
      match s with
      | EmptyString => matchTerms ts' k i s
      | String _ _ => false
      end
  | TermAtom a QOne :: ts' => atomMatcher a (matchTerms ts' k) i s
  | TermAtom a QStar :: ts' => repeatMatcher a (matchTerms ts' k) i s
  | TermAtom a QPlus :: ts' =>
      atomMatcher a (repeatMatcher a (matchTerms ts' k)) i s
  | TermAtom a QOpt :: ts' =>
      atomMatcher a (matchTerms ts' k) i s || matchTerms ts' k i s
  end.

(** The search of [exec] without the [g] and [y] flags: try index 0, then
    each later index. *)
Fixpoint execFrom (r : t) (i : nat) (s : string) : bool :=
  matchTerms r (fun _ _ => true) i s ||
  match s with
  | String _ s' => execFrom r (S i) s'
  | EmptyString => false
  end.

(** [r.test(s)] *)
Definition test (r : t) (s : string) : bool := execFrom r 0 s.

End RegExp.

(** ** String.prototype.replace

    [s.replace(/[...]/g, repl)] for a global pattern that matches exactly one
    character: every character [c] with [p c] is replaced by [repl c], the
    replacement text with [$&] expanded to the match. *)

Fixpoint replaceAll (p : ascii -> bool) (repl : ascii -> string) (s : string)
  : string :=
  match s with
  | EmptyString => EmptyString
  | String c s' =>
      (if p c then repl c else String c EmptyString) +:+ replaceAll p repl s'
  end.

(** ** binding-filter.ts *)

(** The binding handle, as the filters and resolvers read it: [key], [tagMap]
    and the value the binding resolves to. *)
Record Binding := {
  key : string;
  tagMap : gmap string Value;
  boundValue : Value;
}.

(** [b.tagNames]: [Object.keys(b.tagMap)] *)
Definition tagNames (b : Binding) : list string :=
  (map_to_list (tagMap b)).*1.

Definition BindingFilter := Binding -> bool.

(** [BindingAddress | BindingFilter] *)
Inductive BindingSelector :=
| Address (k : string)
| Filter (f : BindingFilter).

Definition isBindingAddress (bindingSelector : BindingSelector) : bool :=
  match bindingSelector with
  | Filter _ => false
  | Address _ => true
  end.

(** An argument as the pattern functions tell it apart: by [typeof] and
    [instanceof RegExp]. *)
Inductive Arg :=
| AValue (v : Value)
| ARegExp (r : RegExp.t)
| AFunction (f : BindingFilter).

Definition newRegExp (source : string) : Result RegExp.t :=
  match RegExp.create source with
  | Some r => Ok r
  | None => Throw (SyntaxError ("Invalid regular expression: " +:+ source))
  end.

Definition isReserved (c : ascii) : bool :=
  RegExp.isOneOf "-[]/{}()+.\^$|:" c.

Definition wildcardToRegExp (pattern : string) : Result RegExp.t :=
  let regexp :=
    replaceAll isReserved (fun c => String "\" (String c EmptyString)) pattern in
  let regexp :=
    replaceAll (Ascii.eqb "?") (fun _ => "[^.:]")
      (replaceAll (Ascii.eqb "*") (fun _ => "[^.:]*") regexp) in
  newRegExp ("^" +:+ regexp +:+ "$").

(** The loop [for (const t in tagPattern)] over the keys of the pattern. *)
Fixpoint matchTagValues (ts : list string) (tagPattern : gmap string Value)
  (b : Binding) : bool :=
  match ts with
  | [] => true
  | t :: ts' =>
      if strictNe (getProp (tagMap b) t) (getProp tagPattern t) then false
      else matchTagValues ts' tagPattern b
  end.

(** The enumerable properties of an argument; a primitive has none. *)
Definition ownProps (v : Arg) : gmap string Value :=
  match v with
  | AValue (VObject _ props) => props
  | _ => ∅
  end.

Definition forInKeys (v : Arg) : list string := (map_to_list (ownProps v)).*1.

Definition filterByTag (tagPattern : Arg) : Result BindingFilter :=
  match tagPattern with
  | AValue (VString s) =>
      match wildcardToRegExp s with
      | Ok regexp => Ok (fun b => existsb (RegExp.test regexp) (tagNames b))
      | Throw e => Throw e
      end
  | ARegExp regexp => Ok (fun b => existsb (RegExp.test regexp) (tagNames b))
  | _ =>
      Ok (fun b =>
            matchTagValues (forInKeys tagPattern) (ownProps tagPattern) b)
  end.

Definition filterByKey (keyPattern : Arg) : Result BindingFilter :=
  match keyPattern with
  | AValue (VString s) =>
      match wildcardToRegExp s with
      | Ok regex => Ok (fun binding => RegExp.test regex (key binding))
      | Throw e => Throw e
      end
  | ARegExp r => Ok (fun binding => RegExp.test r (key binding))
  | AFunction f => Ok f
  | _ => Ok (fun _ => true)
  end.

(** *** The wildcard language, as the documentation words it

    [*] stands for zero or more characters other than [.] and [:], [?] for
    exactly one such character, any other character for itself; the whole
    key is matched. *)

Definition isSeparator (c : ascii) : bool :=
  Ascii.eqb c "." || Ascii.eqb c ":".

Fixpoint noSeparator (s : string) : bool :=
  match s with
  | EmptyString => true
  | String c s' => negb (isSeparator c) && noSeparator s'
  end.

Inductive wildcardMatches : string -> string -> Prop :=
| wm_end : wildcardMatches "" ""
| wm_star p k1 k2 :
    noSeparator k1 = true -> wildcardMatches p k2 ->
    wildcardMatches (String "*" p) (k1 +:+ k2)
| wm_question p c k :
    isSeparator c = false -> wildcardMatches p k ->
    wildcardMatches (String "?" p) (String c k)
| wm_char c p k :
    c <> "*"%char -> c <> "?"%char -> wildcardMatches p k ->
    wildcardMatches (String c p) (String c k).

Fixpoint hasWildcard (p : string) : bool :=
  match p with
  | EmptyString => false
  | String c p' => Ascii.eqb c "*" || Ascii.eqb c "?" || hasWildcard p'
  end.

(** ** The collaborators of the resolvers

    [Context], [ContextView], [ResolutionSession] and [getDeepProperty] live
    in files of the package that the resolvers import; they are modelled from
    their documented contract. *)

(** [BindingCreationPolicy] *)
Inductive BindingCreationPolicy :=
| ALWAYS_CREATE
| NEVER_CREATE
| CREATE_IF_NOT_BOUND.

(** The options object of [ctx.get] and [ctx.getConfigAsValueOrPromise]:
    sessions and contexts are objects, named by their index in the world. *)
Record ResolutionOptions := {
  session : option nat;
  optional : option bool;
}.

(** A call made on a [Context] object. *)
Inductive StoreCall :=
| CallGet (ctx : nat) (selector : BindingSelector) (opts : ResolutionOptions)
| CallFindOrCreateBinding (ctx : nat) (selector : BindingSelector)
    (policy : option BindingCreationPolicy)
| CallGetConfig (ctx : nat) (key : string) (configPath : option string)
    (opts : ResolutionOptions)
| CallFind (ctx : nat)
| CallSubscribe (ctx : nat).

(** The mutable objects the resolvers share. *)
Record World := {
  contexts : list (list Binding);   (* per Context, its bindings in registration order *)
  sessions : list (list Binding);   (* per ResolutionSession, its stack, top first *)
  calls : list StoreCall;           (* the calls made on Context objects, oldest first *)
}.

(** A computation on the world that returns or throws. *)
Definition M (A : Type) : Type := World -> Result A * World.

#[global] Instance M_ret : MRet M := fun A a w => (Ok a, w).
#[global] Instance M_bind : MBind M := fun A B f m w =>
  match m w with
  | (Ok a, w') => f a w'
  | (Throw e, w') => (Throw e, w')
  end.

Definition throw {A} (e : Exn) : M A := fun w => (Throw e, w).

Definition liftResult {A} (r : Result A) : M A := fun w => (r, w).

Definition getWorld : M World := fun w => (Ok w, w).

Definition putWorld (w : World) : M unit := fun _ => (Ok tt, w).

Definition record (c : StoreCall) : M unit := fun w =>
  (Ok tt, {| contexts := contexts w; sessions := sessions w;
             calls := calls w ++ [c] |}).

Definition setRegistry (ctx : nat) (bs : list Binding) : M unit := fun w =>
  (Ok tt, {| contexts := <[ctx := bs]> (contexts w); sessions := sessions w;
             calls := calls w |}).

Definition registry (ctx : nat) (w : World) : list Binding :=
  default [] (contexts w !! ctx).

Definition findByKey (k : string) (bs : list Binding) : option Binding :=
  find (fun b => String.eqb (key b) k) bs.

(** Splitting a dotted path. *)
Fixpoint splitOn (sep : ascii) (s : string) : list string :=
  match s with
  | EmptyString => [EmptyString]
  | String c s' =>
      if Ascii.eqb c sep then EmptyString :: splitOn sep s'
      else match splitOn sep s' with
           | seg :: segs => String c seg :: segs
           | [] => [String c EmptyString]
           end
  end.

Definition isEmptyString (s : string) : bool :=
  match s with
  | EmptyString => true
  | String _ _ => false
  end.

(** Modelled from the spec: [getDeepProperty] of [value-promise.ts], a
    null-safe deep-property lookup along a dotted path that returns
    [undefined] if any path segment is missing. *)
Definition getDeepProperty (value : Value) (path : string) : Value :=
  fold_left
    (fun result p =>
       match result with
       | VObject _ props => getProp props p
       | _ => VUndefined
       end)
    (filter (fun p => isEmptyString p = false) (splitOn "." path))
    value.

Module ResolutionSession.

(** Modelled from the spec: [ResolutionSession.fork] of
    [resolution-session.ts]; it returns an independent session with the same
    stack contents, and [fork(undefined)] returns [undefined]. *)
Definition fork (s : option nat) : M (option nat) := fun w =>
  match s with
  | None => (Ok None, w)
  | Some r =>
      (Ok (Some (length (sessions w))),
       {| contexts := contexts w;
          sessions := sessions w ++ [default [] (sessions w !! r)];
          calls := calls w |})
  end.

(** Modelled from the spec: the accessor [currentBinding] of
    [resolution-session.ts], a read accessor into the top of the stack. *)
Definition currentBinding (r : nat) : M (option Binding) := fun w =>
  (Ok (head (default [] (sessions w !! r))), w).

End ResolutionSession.

Module Context.

Definition notBound (k : string) : Exn :=
  Error ("The key '" +:+ k +:+ "' is not bound to any value").

(** Modelled from the spec: [Context.get] of [context.ts]; a single lookup,
    [undefined] for an absent binding when flagged optional, the store's not
    found error otherwise. *)
Definition get (ctx : nat) (selector : BindingSelector)
  (opts : ResolutionOptions) : M Value :=
  record (CallGet ctx selector opts);;
  w ← getWorld;
  match selector with
  | Address k =>
      match findByKey k (registry ctx w) with
      | Some b => mret (boundValue b)
      | None =>
          if default false (optional opts) then mret VUndefined
          else throw (notBound k)
      end
  | Filter _ => throw (TypeError "the binding key is not a string")
  end.

(** Modelled from the spec: [Context.findOrCreateBinding] of [context.ts];
    the policy is one of return-existing-or-fail, create-if-absent (the
    default) and always-create-fresh. The handle of a binding is its key. *)
Definition findOrCreateBinding (ctx : nat) (selector : BindingSelector)
  (policy : option BindingCreationPolicy) : M string :=
  record (CallFindOrCreateBinding ctx selector policy);;
  w ← getWorld;
  match selector with
  | Address k =>
      let fresh := {| key := k; tagMap := ∅; boundValue := VUndefined |} in
      let others :=
        filter (fun b => String.eqb (key b) k = false) (registry ctx w) in
      match default CREATE_IF_NOT_BOUND policy, findByKey k (registry ctx w) with
      | ALWAYS_CREATE, _ => setRegistry ctx (others ++ [fresh]);; mret k
      | NEVER_CREATE, Some _ => mret k
      | NEVER_CREATE, None => throw (notBound k)
      | CREATE_IF_NOT_BOUND, Some _ => mret k
      | CREATE_IF_NOT_BOUND, None =>
          setRegistry ctx (registry ctx w ++ [fresh]);; mret k
      end
  | Filter _ => throw (TypeError "the binding key is not a string")
  end.

(** Modelled from the spec: [binding.to(value)] of [binding.ts], the mutation
    of the binding handle that binds it to a constant. *)
Definition bindingTo (ctx : nat) (k : string) (value : Value) : M unit :=
  w ← getWorld;
  setRegistry ctx
    (map (fun b =>
            if String.eqb (key b) k
            then {| key := key b; tagMap := tagMap b; boundValue := value |}
            else b)
       (registry ctx w)).

End Context.

(** A view: the context it queries and its filter (an unchecked cast of the
    selector of the injection). *)
Record ContextView := {
  viewContext : nat;
  viewFilter : BindingSelector;
}.

Module ContextViewOps.

(** Modelled from the spec: [ContextView.open] of [context-view.ts]; it
    subscribes to the change notifications of the context. *)
Definition open (view : ContextView) : M unit :=
  record (CallSubscribe (viewContext view)).

(** Modelled from the spec: [ContextView.bindings] of [context-view.ts]; the
    current matching set, in the order the store reports bindings. *)
Definition bindings (view : ContextView) : M (list Binding) :=
  record (CallFind (viewContext view));;
  w ← getWorld;
  match viewFilter view with
  | Filter f => mret (filter (fun b => f b = true) (registry (viewContext view) w))
  | Address _ => throw (TypeError "filter is not a function")
  end.

(** Modelled from the spec: [ContextView.values] of [context-view.ts]; it
    resolves each matching binding's value. *)
Definition values (view : ContextView) (session : option nat) : M (list Value) :=
  bs ← bindings view;
  mret (map boundValue bs).

(** Modelled from the spec: [ContextView.resolve] of [context-view.ts]; the
    view resolved to an ordered sequence. *)
Definition resolve (view : ContextView) (session : option nat) : M (list Value) :=
  values view session.

(** Modelled from the spec: [createViewGetter] of [context-view.ts]; the
    getter of an opened view, with a forked session captured when it is
    declared. *)
Definition createViewGetter (ctx : nat) (bindingFilter : BindingSelector)
  (session : option nat) : M (M (list Value)) :=
  let view := {| viewContext := ctx; viewFilter := bindingFilter |} in
  open view;;
  session' ← ResolutionSession.fork session;
  mret (values view session').

End ContextViewOps.

(** ** inject.ts *)

Module InjectionMetadata.

(** The well-known attributes of the metadata object. *)
Record t := {
  decorator : option string;
  optional : option bool;
  configPath : option string;
  bindingCreation : option BindingCreationPolicy;
  tag : option Arg;
}.

Definition empty : t :=
  {| decorator := None; optional := None; configPath := None;
     bindingCreation := None; tag := None |}.

(** [Object.assign(defaults, metadata)]: an attribute of [metadata] wins. *)
Definition assign (defaults : t) (metadata : option t) : t :=
  match metadata with
  | None => defaults
  | Some m =>
      {| decorator := decorator m ∪ decorator defaults;
         optional := optional m ∪ optional defaults;
         configPath := configPath m ∪ configPath defaults;
         bindingCreation := bindingCreation m ∪ bindingCreation defaults;
         tag := tag m ∪ tag defaults |}
  end.

End InjectionMetadata.

(** The types the reflection reports: constructor functions. *)
Inductive DesignType :=
| TFunction
| TArray
| TBinding
| TContextView
| TClass (name : string).

#[global] Instance DesignType_eq_dec : EqDecision DesignType.
Proof. solve_decision. Defined.

(** [type.name] *)
Definition typeName (type : DesignType) : string :=
  match type with
  | TFunction => "Function"
  | TArray => "Array"
  | TBinding => "Binding"
  | TContextView => "ContextView"
  | TClass name => name
  end.

(** The decorated object: a class (for a constructor or a static member) or
    a prototype. *)
Record Target := {
  className : string;
  isClass : bool;          (* [target instanceof Function] *)
}.

Inductive MethodDescriptorOrParameterIndex :=
| ParameterIndex (n : nat)
| MethodDescriptor.

(** The descriptor of an injection point, as a resolver reads it. *)
Record Injection := {
  target : Target;
  member : option string;
  methodDescriptorOrParameterIndex : option MethodDescriptorOrParameterIndex;
  bindingSelector : BindingSelector;
  metadata : InjectionMetadata.t;
}.

(** [ConfigView] of inject-config.ts: a [ContextView] with a private
    [configPath]. *)
Record ConfigView := {
  super : ContextView;
  configPath : option string;
}.

(** What a resolver returns. A getter returns the value or the array of the
    selected bindings. *)
Inductive Resolved :=
| RValue (v : Value)
| RArray (vs : list Value)
| RGetter (getter : M Value)
| RArrayGetter (getter : M (list Value))
| RSetter (setter : Value -> M unit)
| RBinding (ctx : nat) (bindingKey : string)
| RView (view : ContextView)
| RConfigView (view : ConfigView)
| RContext (ctx : nat).

Definition ResolverFunction : Type :=
  nat -> Injection -> option nat -> M Resolved.

(** The descriptor with its custom resolve function, as [inject] records it. *)
Record InjectionSpec := {
  injection : Injection;
  resolve : option ResolverFunction;
}.

(** [DesignTimeMethodMetadata] of @loopback/metadata *)
Record DesignTimeMethodMetadata := {
  parameterTypes : list (option DesignType);
}.

(** What the resolvers take from other packages and files: the reflection of
    @loopback/metadata, the naming of targets, and the key of the
    configuration of a binding. *)
Class Collaborators := {
  getDesignTypeForProperty : Target -> option string -> option DesignType;
  getDesignTypeForMethod : Target -> option string -> DesignTimeMethodMetadata;
  getTargetName :
    Target -> option string -> option MethodDescriptorOrParameterIndex -> string;
  describeInjectionTargetName : Injection -> string;
  buildKeyForConfig : string -> string;
}.

Module Inject.
Section Resolvers.
Context `{Collaborators}.

(** Modelled from the spec: [Context.getConfigAsValueOrPromise] of
    [context.ts]; it resolves the configuration sub-binding of the key and
    projects the dotted path out of its value, and an absent configuration
    yields [undefined] rather than failing. *)
Definition getConfigAsValueOrPromise (ctx : nat) (k : string)
  (path : option string) (opts : ResolutionOptions) : M Value :=
  record (CallGetConfig ctx k path opts);;
  w ← getWorld;
  match findByKey (buildKeyForConfig k) (registry ctx w) with
  | Some b => mret (getDeepProperty (boundValue b) (default "" path))
  | None =>
      if default true (optional opts) then mret VUndefined
      else throw (Context.notBound (buildKeyForConfig k))
  end.

Definition inspectTargetType (injection : Injection) : option DesignType :=
  match getDesignTypeForProperty (target injection) (member injection) with
  | Some type => Some type
  | None =>
      let designType :=
        getDesignTypeForMethod (target injection) (member injection) in
      match methodDescriptorOrParameterIndex injection with
      | Some (ParameterIndex i) => mjoin (parameterTypes designType !! i)
      | _ => None
      end
  end.

(** Reading [targetType.name]. *)
Definition nameOf (targetType : option DesignType) : Result string :=
  match targetType with
  | Some type => Ok (typeName type)
  | None => Throw (TypeError "Cannot read property 'name' of undefined")
  end.

Definition notA (injection : Injection) (type : DesignType) (what : string)
  : Exn :=
  Error ("The type of " +:+ describeInjectionTargetName injection +:+ " (" +:+
         typeName type +:+ ") is not " +:+ what).

Definition assertTargetIsGetter (injection : Injection) : Result unit :=
  match inspectTargetType injection with
  | Some targetType =>
      if decide (targetType <> TFunction)
      then Throw (notA injection targetType "a Getter function")
      else Ok tt
  | None => Ok tt
  end.

Definition resolveAsGetter (ctx : nat) (injection : Injection)
  (session : option nat) : M Resolved :=
  liftResult (assertTargetIsGetter injection);;
  let bindingSelector := bindingSelector injection in
  session ← ResolutionSession.fork session;
  mret (RGetter
          (Context.get ctx bindingSelector
             {| session := session;
                optional := InjectionMetadata.optional (metadata injection) |})).

Definition findOrCreateBindingForInjection (ctx : nat) (injection : Injection)
  : M string :=
  let bindingCreation :=
    InjectionMetadata.bindingCreation (metadata injection) in
  Context.findOrCreateBinding ctx (bindingSelector injection) bindingCreation.

Definition doesNotAllowBindingFilter (decorator : string)
  (targetType : option DesignType) : Exn :=
  match nameOf targetType with
  | Ok name =>
      Error (decorator +:+ " for (" +:+ name +:+
             ") does not allow BindingFilter")
  | Throw e => e
  end.

Definition resolveAsSetter (ctx : nat) (injection : Injection)
  (_ : option nat) : M Resolved :=
  let targetType := inspectTargetType injection in
  match targetType with
  | Some type =>
      if decide (type <> TFunction)
      then throw (notA injection type "a Setter function")
      else mret tt
  | None => mret tt
  end;;
  if negb (isBindingAddress (bindingSelector injection))
  then throw (doesNotAllowBindingFilter "@inject.setter" targetType)
  else
    mret (RSetter (fun value =>
                     binding ← findOrCreateBindingForInjection ctx injection;
                     Context.bindingTo ctx binding value)).

Definition resolveAsBinding (ctx : nat) (injection : Injection)
  (_ : option nat) : M Resolved :=
  let targetType := inspectTargetType injection in
  match targetType with
  | Some type =>
      if decide (type <> TBinding)
      then throw (notA injection type "Binding")
      else mret tt
  | None => mret tt
  end;;
  if negb (isBindingAddress (bindingSelector injection))
  then throw (doesNotAllowBindingFilter "@inject.binding" targetType)
  else
    binding ← findOrCreateBindingForInjection ctx injection;
    mret (RBinding ctx binding).

Definition resolveFromConfig (ctx : nat) (injection : Injection)
  (session : option nat) : M Resolved :=
  match session with
  | None => mret (RValue VUndefined)
  | Some s =>
      currentBinding ← ResolutionSession.currentBinding s;
      match currentBinding with
      | None => mret (RValue VUndefined)
      | Some binding =>
          let meta := metadata injection in
          v ← getConfigAsValueOrPromise ctx (key binding)
                (InjectionMetadata.configPath meta)
                {| session := session;
                   optional := InjectionMetadata.optional meta |};
          mret (RValue v)
      end
  end.

Definition assertTargetIsArray (injection : Injection) : Result unit :=
  let targetType := inspectTargetType injection in
  if decide (targetType <> Some TArray)
  then
    match nameOf targetType with
    | Ok name =>
        Throw (Error ("The type of " +:+ describeInjectionTargetName injection
                      +:+ " (" +:+ name +:+ ") is not Array"))
    | Throw e => Throw e
    end
  else Ok tt.

Definition resolveValuesByFilter (ctx : nat) (injection : Injection)
  (session : option nat) : M Resolved :=
  liftResult (assertTargetIsArray injection);;
  let bindingFilter := bindingSelector injection in
  let view := {| viewContext := ctx; viewFilter := bindingFilter |} in
  vs ← ContextViewOps.resolve view session;
  mret (RArray vs).

Definition resolveAsGetterByFilter (ctx : nat) (injection : Injection)
  (session : option nat) : M Resolved :=
  liftResult (assertTargetIsGetter injection);;
  let bindingFilter := bindingSelector injection in
  getter ← ContextViewOps.createViewGetter ctx bindingFilter session;
  mret (RArrayGetter getter).

Definition resolveAsContextView (ctx : nat) (injection : Injection)
  (session : option nat) : M Resolved :=
  match inspectTargetType injection with
  | Some targetType =>
      if decide (targetType <> TContextView)
      then throw (notA injection targetType "ContextView")
      else mret tt
  | None => mret tt
  end;;
  let bindingFilter := bindingSelector injection in
  let view := {| viewContext := ctx; viewFilter := bindingFilter |} in
  ContextViewOps.open view;;
  mret (RView view).

(** *** The decorators

    A decorator is modelled by the descriptor it records for the member it
    is applied to, or the error it throws. *)

Definition Decorator : Type :=
  Target -> option string -> option MethodDescriptorOrParameterIndex ->
  Result InjectionSpec.

Definition isTruthyName (member : option string) : bool :=
  match member with
  | Some m => negb (isEmptyString m)
  | None => false
  end.

Definition inject (bindingSelector : BindingSelector)
  (metadata : option InjectionMetadata.t) (resolve : option ResolverFunction)
  : Decorator :=
  let resolve :=
    match bindingSelector, resolve with
    | Filter _, None => Some resolveValuesByFilter
    | _, _ => resolve
    end in
  let injectionMetadata :=
    InjectionMetadata.assign
      {| InjectionMetadata.decorator := Some "@inject";
         InjectionMetadata.optional := None;
         InjectionMetadata.configPath := None;
         InjectionMetadata.bindingCreation := None;
         InjectionMetadata.tag := None |} metadata in
  fun target member methodDescriptorOrParameterIndex =>
    let recorded :=
      {| injection :=
           {| target := target; member := member;
              methodDescriptorOrParameterIndex :=
                methodDescriptorOrParameterIndex;
              bindingSelector := bindingSelector;
              metadata := injectionMetadata |};
         resolve := resolve |} in
    match methodDescriptorOrParameterIndex with
    | Some (ParameterIndex _) => Ok recorded
    | _ =>
        if isTruthyName member then
          if isClass target then
            Throw (Error ("@inject is not supported for a static property: "
                          +:+ getTargetName target member None))
          else
            match methodDescriptorOrParameterIndex with
            | Some _ =>
                Throw (Error ("@inject cannot be used on a method: " +:+
                              getTargetName target member
                                methodDescriptorOrParameterIndex))
            | None => Ok recorded
            end
        else
          Throw (Error
                   "@inject can only be used on a property or a method parameter")
    end.

Definition withDecorator (name : string) : InjectionMetadata.t :=
  {| InjectionMetadata.decorator := Some name;
     InjectionMetadata.optional := None;
     InjectionMetadata.configPath := None;
     InjectionMetadata.bindingCreation := None;
     InjectionMetadata.tag := None |}.

Definition inject_getter (bindingSelector : BindingSelector)
  (metadata : option InjectionMetadata.t) : Decorator :=
  let metadata := InjectionMetadata.assign (withDecorator "@inject.getter") metadata in
  inject bindingSelector (Some metadata)
    (Some (if isBindingAddress bindingSelector
           then resolveAsGetter else resolveAsGetterByFilter)).

Definition inject_setter (bindingKey : BindingSelector)
  (metadata : option InjectionMetadata.t) : Decorator :=
  let metadata := InjectionMetadata.assign (withDecorator "@inject.setter") metadata in
  inject bindingKey (Some metadata) (Some resolveAsSetter).

Definition inject_binding (bindingKey : BindingSelector)
  (metadata : option InjectionMetadata.t) : Decorator :=
  let metadata := InjectionMetadata.assign (withDecorator "@inject.binding") metadata in
  inject bindingKey (Some metadata) (Some resolveAsBinding).

Definition inject_tag (bindingTag : Arg)
  (metadata : option InjectionMetadata.t) : Result Decorator :=
  let metadata :=
    InjectionMetadata.assign
      {| InjectionMetadata.decorator := Some "@inject.tag";
         InjectionMetadata.optional := None;
         InjectionMetadata.configPath := None;
         InjectionMetadata.bindingCreation := None;
         InjectionMetadata.tag := Some bindingTag |} metadata in
  match filterByTag bindingTag with
  | Ok f => Ok (inject (Filter f) (Some metadata) None)
  | Throw e => Throw e
  end.

Definition inject_view (bindingFilter : BindingSelector)
  (metadata : option InjectionMetadata.t) : Decorator :=
  let metadata := InjectionMetadata.assign (withDecorator "@inject.view") metadata in
  inject bindingFilter (Some metadata) (Some resolveAsContextView).

Definition inject_context : Decorator :=
  inject (Address "") (Some (withDecorator "@inject.context"))
    (Some (fun ctx _ _ => mret (RContext ctx))).

Definition inject_config (configPath : option string)
  (metadata : option InjectionMetadata.t) : Decorator :=
  let configPath := default "" configPath in
  let metadata :=
    InjectionMetadata.assign
      {| InjectionMetadata.decorator := Some "@inject.config";
         InjectionMetadata.optional := Some true;
         InjectionMetadata.configPath := Some configPath;
         InjectionMetadata.bindingCreation := None;
         InjectionMetadata.tag := None |} metadata in
  inject (Address "") (Some metadata) (Some resolveFromConfig).

End Resolvers.
End Inject.

(** ** inject-config.ts *)

Module InjectConfig.
Section Resolvers.
Context `{Collaborators}.

(** The signature declares [session] as required; a caller that passes
    [undefined] all the same makes [session.currentBinding] throw. *)
Definition getCurrentBindingKey (session : option nat) : M (option string) :=
  match session with
  | None =>
      throw (TypeError "Cannot read property 'currentBinding' of undefined")
  | Some s =>
      currentBinding ← ResolutionSession.currentBinding s;
      mret (key <$> currentBinding)
  end.

(** [!bindingKey] *)
Definition isFalsyKey (bindingKey : option string) : bool :=
  match bindingKey with
  | Some k => isEmptyString k
  | None => true
  end.

Definition resolveFromConfig (ctx : nat) (injection : Injection)
  (session : option nat) : M Resolved :=
  let meta := metadata injection in
  bindingKey ← getCurrentBindingKey session;
  if isFalsyKey bindingKey then mret (RValue VUndefined)
  else
    v ← Inject.getConfigAsValueOrPromise ctx (default "" bindingKey)
          (InjectionMetadata.configPath meta)
          {| session := session;
             optional := InjectionMetadata.optional meta |};
    mret (RValue v).

Definition resolveAsGetterFromConfig (ctx : nat) (injection : Injection)
  (session : option nat) : M Resolved :=
  let meta := metadata injection in
  bindingKey ← getCurrentBindingKey session;
  forkedSession ← ResolutionSession.fork session;
  mret (RGetter
          (if isFalsyKey bindingKey then mret VUndefined
           else
             Inject.getConfigAsValueOrPromise ctx (default "" bindingKey)
               (InjectionMetadata.configPath meta)
               {| session := forkedSession;
                  optional := InjectionMetadata.optional meta |})).

(** [new ConfigView(ctx, filter, configPath)] *)
Definition newConfigView (ctx : nat) (filter : BindingFilter)
  (configPath : option string) : ConfigView :=
  {| super := {| viewContext := ctx; viewFilter := Filter filter |};
     configPath := configPath |}.

Definition resolveAsViewFromConfig (ctx : nat) (injection : Injection)
  (session : option nat) : M Resolved :=
  match Inject.inspectTargetType injection with
  | Some targetType =>
      if decide (targetType <> TContextView)
      then throw (Inject.notA injection targetType "ContextView")
      else mret tt
  | None => mret tt
  end;;
  bindingKey ← getCurrentBindingKey session;
  if isFalsyKey bindingKey then mret (RValue VUndefined)
  else
    let view :=
      newConfigView ctx
        (fun binding =>
           String.eqb (key binding)
             (buildKeyForConfig (default "" bindingKey)))
        None in
    ContextViewOps.open (super view);;
    mret (RConfigView view).

(** [ConfigView.values] *)
Definition values (view : ConfigView) (session : option nat) : M (list Value) :=
  configValues ← ContextViewOps.values (super view) session;
  match configPath view with
  | None => mret configValues
  | Some configPath =>
      if isEmptyString configPath then mret configValues
      else mret (map (fun v => getDeepProperty v configPath) configValues)
  end.

Definition configMetadata (decorator : string) (configPath : option string)
  (metadata : option InjectionMetadata.t) : InjectionMetadata.t :=
  let configPath := default "" configPath in
  InjectionMetadata.assign
    {| InjectionMetadata.decorator := Some decorator;
       InjectionMetadata.optional := Some true;
       InjectionMetadata.configPath := Some configPath;
       InjectionMetadata.bindingCreation := None;
       InjectionMetadata.tag := None |} metadata.



Definition config_view (configPath : option string)
  (metadata : option InjectionMetadata.t) : Inject.Decorator :=
  Inject.inject (Address "")
    (Some (configMetadata "@config.view" configPath metadata))
    (Some resolveAsViewFromConfig).

End Resolvers.
End InjectConfig.

(** ** A concrete setting: no reflection metadata at all, and the
    configuration of key [k] bound at [k:$config]. *)

Definition noReflection : Collaborators :=
  {| getDesignTypeForProperty := fun _ _ => None;
     getDesignTypeForMethod := fun _ _ => {| parameterTypes := [] |};
     getTargetName := fun t m _ => className t +:+ "." +:+ default "constructor" m;
     describeInjectionTargetName := fun i =>
       className (target i) +:+ "." +:+ default "constructor" (member i);
     buildKeyForConfig := fun k => k +:+ ":$config" |}.

(** ** Fixtures

    A prototype target, a store holding the binding [store1] and its
    configuration [{x: 1}], and a session that is resolving [store1]. *)

Definition storeTarget : Target := {| className := "Store"; isClass := false |}.

Definition storeConfig : Value := VObject 1 {[ "x" := VNumber (Int 1) ]}.

Definition store1 : Binding :=
  {| key := "store1"; tagMap := ∅; boundValue := VUndefined |}.

Definition store1Config : Binding :=
  {| key := "store1:$config"; tagMap := ∅; boundValue := storeConfig |}.

Definition world1 : World :=
  {| contexts := [[store1; store1Config]]; sessions := [[store1]; []];
     calls := [] |}.

Definition bindingOfKey (k : string) : Binding :=
  {| key := k; tagMap := ∅; boundValue := VUndefined |}.

(** What the filter of a string key pattern answers on a key. *)
Definition keyFilter (pattern : string) (k : string) : option bool :=
  match filterByKey (AValue (VString pattern)) with
  | Ok f => Some (f (bindingOfKey k))
  | Throw _ => None
  end.

(** An injection point on a property of [storeTarget]. *)
Definition propertyInjection (selector : BindingSelector) : Injection :=
  {| target := storeTarget; member := Some "prop";
     methodDescriptorOrParameterIndex := None;
     bindingSelector := selector;
     metadata := InjectionMetadata.empty |}.

(** A key pattern that is neither a string, nor a RegExp, nor a function. *)
Definition malformedKeyPattern (keyPattern : Arg) : bool :=
  match keyPattern with
  | AValue (VString _) => false
  | ARegExp _ => false
  | AFunction _ => false
  | AValue _ => true
  end.

(** The stack of a session object. *)
Definition stackOf (w : World) (s : nat) : list Binding :=
  default [] (sessions w !! s).

(** ** Vocabulary of the proofs *)

(** The class [[^.:]]. *)
Definition separators : RegExp.Atom :=
  RegExp.CharacterClass true ["."; ":"]%char.

(** The term a pattern character stands for. *)
Definition termOf (c : ascii) : RegExp.Term :=
  if Ascii.eqb c "*" then RegExp.TermAtom separators RegExp.QStar
  else if Ascii.eqb c "?" then RegExp.TermAtom separators RegExp.QOne
  else if isReserved c then RegExp.TermAtom (RegExp.IdentityEscape c) RegExp.QOne
  else RegExp.TermAtom (RegExp.PatternCharacter c) RegExp.QOne.

Fixpoint termsOf (p : string) : list RegExp.Term :=
  match p with
  | EmptyString => []
  | String c p' => termOf c :: termsOf p'
  end.

(** The text a pattern character is rewritten to by the three replacements. *)
Definition written (c : ascii) : string :=
  if Ascii.eqb c "*" then "[^.:]*"
  else if Ascii.eqb c "?" then "[^.:]"
  else if isReserved c then String "\" (String c "")
  else String c "".

(** The three replacements of [wildcardToRegExp], in their order. *)
Definition rewrite3 (p : string) : string :=
  replaceAll (Ascii.eqb "?") (fun _ => "[^.:]")
    (replaceAll (Ascii.eqb "*") (fun _ => "[^.:]*")
       (replaceAll isReserved (fun c => String "\" (String c "")) p)).

(** The parser on a prefix of the pattern: the state reached and the terms
    written so far. *)
Fixpoint runSteps (st : RegExp.PState) (s : string)
  : option (RegExp.PState * list RegExp.Term) :=
  match s with
  | EmptyString => Some (st, [])
  | String c s' =>
      match RegExp.step st c with
      | Some (st', out) =>
          match runSteps st' s' with
          | Some (st'', out') => Some (st'', out ++ out')
          | None => None
          end
      | None => None
      end
  end.

(** Between two pattern characters the parser is at the start of a term or
    just after an atom, whose term is still to be written. *)
Inductive Between :=
| AtTerm
| AfterAtom (a : RegExp.Atom).

Definition stateOf (b : Between) : RegExp.PState :=
  match b with
  | AtTerm => RegExp.PTerm
  | AfterAtom a => RegExp.PAtom a
  end.

Definition flush (b : Between) : list RegExp.Term :=
  match b with
  | AtTerm => []
  | AfterAtom a => [RegExp.TermAtom a RegExp.QOne]
  end.

Definition afterWritten (c : ascii) : Between :=
  if Ascii.eqb c "*" then AtTerm
  else if Ascii.eqb c "?" then AfterAtom separators
  else if isReserved c then AfterAtom (RegExp.IdentityEscape c)
  else AfterAtom (RegExp.PatternCharacter c).

Fixpoint allMatch (a : RegExp.Atom) (s : string) : bool :=
  match s with
  | EmptyString => true
  | String c s' => RegExp.atomMatches a c && allMatch a s'
  end.

(** The continuation of a whole pattern. *)
Definition accept : RegExp.Continuation := fun _ _ => true.

(** A value other than an object and other than [NaN]. *)
Definition isPlain (v : Value) : bool :=
  match v with
  | VObject _ _ => false
  | VNumber NaN => false
  | _ => true
  end.

(** ** The rest of inject.ts *)

Module Getter.

(** [Getter.fromValue]: a getter returning that value. *)
Definition fromValue (value : Value) : M Value := mret value.

End Getter.

(** The inspection of recorded injections, of @loopback/metadata, and the
    two tests [describeInjectedArguments] makes on its target. *)
Class MetadataInspector := {
  hasExplicitConstructor : Target -> bool;
  hasOwnProperty : Target -> string -> bool;
  getAllParameterMetadata :
    Target -> string -> bool -> option (list Injection);
  getAllPropertyMetadata : Target -> option (gmap string Injection);
}.

Definition describeInjectedArguments `{MetadataInspector} (target : Target)
  (method : option string) : list Injection :=
  let method := default "" method in
  let ownMetadataOnly :=
    if isEmptyString method then hasExplicitConstructor target
    else hasOwnProperty target method in
  default [] (getAllParameterMetadata target method ownMetadataOnly).

Definition describeInjectedProperties `{MetadataInspector} (target : Target)
  : gmap string Injection :=
  default ∅ (getAllPropertyMetadata target).

(** ** More fixtures and vocabulary *)

(** A reflection that reports one design type for every property. *)
Definition typedReflection (type : DesignType) : Collaborators :=
  {| getDesignTypeForProperty := fun _ _ => Some type;
     getDesignTypeForMethod := fun _ _ => {| parameterTypes := [] |};
     getTargetName := fun t m _ => className t +:+ "." +:+ default "constructor" m;
     describeInjectionTargetName := fun i =>
       className (target i) +:+ "." +:+ default "constructor" (member i);
     buildKeyForConfig := fun k => k +:+ ":$config" |}.

(** The separators of a key or pattern, in their order. *)
Fixpoint separatorsOf (s : string) : list ascii :=
  match s with
  | EmptyString => []
  | String c s' =>
      if isSeparator c then c :: separatorsOf s' else separatorsOf s'
  end.

Fixpoint hasStar (p : string) : bool :=
  match p with
  | EmptyString => false
  | String c p' => Ascii.eqb c "*" || hasStar p'
  end.

(** A tag pattern that is neither a string nor a RegExp. *)
Definition tagMapPattern (tagPattern : Arg) : bool :=
  match tagPattern with
  | AValue (VString _) => false
  | ARegExp _ => false
  | _ => true
  end.

(** The current binding of a session object. *)
Definition currentBindingOf (w : World) (s : nat) : option Binding :=
  head (stackOf w s).

(** The world after one more call on a context. *)
Definition called (c : StoreCall) (w : World) : World :=
  {| contexts := contexts w; sessions := sessions w; calls := calls w ++ [c] |}.

(** What [binding.to(value)] makes of a binding of the store. *)
Definition updateValue (k : string) (value : Value) (b : Binding) : Binding :=
  if String.eqb (key b) k
  then {| key := key b; tagMap := tagMap b; boundValue := value |}
  else b.

(** * Properties *)

(** ** Strings *)

Lemma append_nil_l (a : string) : "" +:+ a = a.
Proof. reflexivity. Qed.

Lemma append_cons (x : ascii) (a b : string) :
  String x a +:+ b = String x (a +:+ b).
Proof. reflexivity. Qed.

Lemma append_assoc (a b c : string) : (a +:+ b) +:+ c = a +:+ (b +:+ c).
Proof.
  induction a as [|x a IH]; [reflexivity|].
  now rewrite !append_cons, IH.
Qed.

Lemma replaceAll_app p repl (a b : string) :
  replaceAll p repl (a +:+ b) = replaceAll p repl a +:+ replaceAll p repl b.
Proof.
  induction a as [|x a IH]; [reflexivity|].
  rewrite append_cons. simpl. rewrite IH. symmetry. apply append_assoc.
Qed.

(** ** The pattern that [wildcardToRegExp] writes *)

Ltac each_ascii c :=
  destruct c as [[|] [|] [|] [|] [|] [|] [|] [|]].

Lemma rewrite3_char (c : ascii) : rewrite3 (String c "") = written c.
Proof. each_ascii c; reflexivity. Qed.

Lemma rewrite3_cons (c : ascii) (p : string) :
  rewrite3 (String c p) = written c +:+ rewrite3 p.
Proof.
  change (String c p) with (String c "" +:+ p).
  unfold rewrite3. rewrite !replaceAll_app.
  now rewrite <- rewrite3_char.
Qed.

(** *** Reading the pattern back *)

Lemma parseFrom_app (a b : string) : forall st,
  RegExp.parseFrom st (a +:+ b) =
  match runSteps st a with
  | Some (st', out) =>
      match RegExp.parseFrom st' b with
      | Some ts => Some (out ++ ts)
      | None => None
      end
  | None => None
  end.
Proof.
  induction a as [|c a IH]; intros st;
    rewrite ?append_nil_l, ?append_cons; simpl.
  - destruct (RegExp.parseFrom st b); reflexivity.
  - destruct (RegExp.step st c) as [[st' out]|]; [|reflexivity].
    rewrite IH. destruct (runSteps st' a) as [[st'' out']|]; [|reflexivity].
    destruct (RegExp.parseFrom st'' b); [|reflexivity].
    now rewrite app_assoc.
Qed.

Lemma runSteps_app (a b : string) : forall st,
  runSteps st (a +:+ b) =
  match runSteps st a with
  | Some (st', out) =>
      match runSteps st' b with
      | Some (st'', out') => Some (st'', out ++ out')
      | None => None
      end
  | None => None
  end.
Proof.
  induction a as [|c a IH]; intros st;
    rewrite ?append_nil_l, ?append_cons; simpl.
  - destruct (runSteps st b) as [[? ?]|]; reflexivity.
  - destruct (RegExp.step st c) as [[st' out]|]; [|reflexivity].
    rewrite IH. destruct (runSteps st' a) as [[st'' out']|]; [|reflexivity].
    destruct (runSteps st'' b) as [[? ?]|]; [|reflexivity].
    now rewrite app_assoc.
Qed.

Lemma flush_afterWritten (c : ascii) :
  (if Ascii.eqb c "*" then [termOf c] else []) ++ flush (afterWritten c)
  = [termOf c].
Proof. each_ascii c; reflexivity. Qed.

Lemma runSteps_written (c : ascii) (b : Between) :
  runSteps (stateOf b) (written c) =
  Some (stateOf (afterWritten c),
        flush b ++ (if Ascii.eqb c "*" then [termOf c] else [])).
Proof. destruct b; each_ascii c; reflexivity. Qed.

Lemma runSteps_rewrite3 (p : string) : forall b,
  exists b' out,
    runSteps (stateOf b) (rewrite3 p) = Some (stateOf b', out) /\
    out ++ flush b' = flush b ++ termsOf p.
Proof.
  induction p as [|c p IH]; intros b.
  - exists b, []. split; [reflexivity|]. simpl. now rewrite app_nil_r.
  - rewrite rewrite3_cons, runSteps_app, runSteps_written.
    destruct (IH (afterWritten c)) as (b' & out & Hrun & Hout).
    rewrite Hrun. eexists _, _. split; [reflexivity|].
    rewrite <- !app_assoc, Hout. simpl termsOf.
    rewrite (app_assoc _ (flush _)), flush_afterWritten. reflexivity.
Qed.

Lemma runSteps_dollar (b : Between) :
  RegExp.parseFrom (stateOf b) "$" = Some (flush b ++ [RegExp.AssertEnd]).
Proof. destruct b; reflexivity. Qed.

(** The regular expression of a wildcard pattern: the pattern characters
    term by term, between the two anchors. *)
Lemma wildcardToRegExp_terms (pattern : string) :
  wildcardToRegExp pattern =
  Ok (RegExp.AssertBegin :: termsOf pattern ++ [RegExp.AssertEnd]).
Proof.
  unfold wildcardToRegExp, newRegExp, RegExp.create.
  fold (rewrite3 pattern).
  rewrite (parseFrom_app "^").
  change (runSteps RegExp.PTerm "^")
    with (Some (RegExp.PTerm, [RegExp.AssertBegin])).
  cbv beta iota.
  rewrite parseFrom_app.
  destruct (runSteps_rewrite3 pattern AtTerm) as (b' & out & Hrun & Hout).
  simpl stateOf in Hrun. rewrite Hrun, runSteps_dollar.
  simpl in Hout. cbv beta iota. rewrite (app_assoc out), Hout. reflexivity.
Qed.

(** ** Matching the pattern *)

Lemma repeatMatcher_spec (a : RegExp.Atom) (k : RegExp.Continuation)
  (s : string) : forall i,
  RegExp.repeatMatcher a k i s = true <->
  exists s1 s2,
    s = s1 +:+ s2 /\ allMatch a s1 = true /\ k (i + String.length s1) s2 = true.
Proof.
  induction s as [|c s IH]; intros i; simpl.
  - split.
    + intros Hk. exists "", "". rewrite Nat.add_0_r. auto.
    + intros (s1 & s2 & Hs & _ & Hk).
      destruct s1; [|discriminate]. destruct s2; [|discriminate].
      now rewrite Nat.add_0_r in Hk.
  - rewrite orb_true_iff, andb_true_iff, IH. split.
    + intros [[Hc (s1 & s2 & -> & Hall & Hk)] | Hk].
      * exists (String c s1), s2. simpl. rewrite Hc, Hall.
        rewrite Nat.add_succ_r. auto.
      * exists "", (String c s). rewrite Nat.add_0_r. auto.
    + intros (s1 & s2 & Hs & Hall & Hk). destruct s1 as [|x s1].
      * right. rewrite append_nil_l in Hs. subst s2.
        now rewrite Nat.add_0_r in Hk.
      * left. rewrite append_cons in Hs. injection Hs as -> ->.
        simpl in Hall. apply andb_true_iff in Hall as [Hx Hall].
        split; [assumption|]. exists s1, s2.
        simpl in Hk. rewrite Nat.add_succ_r in Hk. auto.
Qed.

Lemma atomMatches_separators (c : ascii) :
  RegExp.atomMatches separators c = negb (isSeparator c).
Proof.
  unfold isSeparator. simpl. now rewrite orb_false_r.
Qed.

Lemma allMatch_separators (s : string) :
  allMatch separators s = noSeparator s.
Proof.
  induction s as [|c s IH]; [reflexivity|].
  cbn [allMatch noSeparator]. now rewrite atomMatches_separators, IH.
Qed.

Lemma termOf_star : termOf "*" = RegExp.TermAtom separators RegExp.QStar.
Proof. reflexivity. Qed.

Lemma termOf_question : termOf "?" = RegExp.TermAtom separators RegExp.QOne.
Proof. reflexivity. Qed.

Lemma termOf_char (c : ascii) :
  c <> "*"%char -> c <> "?"%char ->
  exists a, termOf c = RegExp.TermAtom a RegExp.QOne /\
            forall x, RegExp.atomMatches a x = Ascii.eqb x c.
Proof.
  intros Hs Hq. unfold termOf.
  destruct (Ascii.eqb_spec c "*"); [contradiction|].
  destruct (Ascii.eqb_spec c "?"); [contradiction|].
  destruct (isReserved c); eexists; split; reflexivity.
Qed.

Lemma matchTerms_wildcard (p : string) : forall i k,
  RegExp.matchTerms (termsOf p ++ [RegExp.AssertEnd]) accept i k = true <->
  wildcardMatches p k.
Proof.
  induction p as [|c p IH]; intros i k.
  - simpl. destruct k; split; intros Hm; try constructor;
      try discriminate; inversion Hm.
  - cbn [termsOf app].
    destruct (Ascii.eqb_spec c "*") as [-> | Hs];
      [| destruct (Ascii.eqb_spec c "?") as [-> | Hq]].
    + rewrite termOf_star. cbn [RegExp.matchTerms].
      rewrite repeatMatcher_spec. split.
      * intros (k1 & k2 & -> & Hall & Hk).
        rewrite allMatch_separators in Hall. apply IH in Hk.
        now constructor.
      * intros Hm. inversion Hm; subst; [|congruence].
        eexists _, _. split; [reflexivity|].
        rewrite allMatch_separators. split; [assumption|]. now apply IH.
    + rewrite termOf_question. cbn [RegExp.matchTerms].
      destruct k as [|x k]; unfold RegExp.atomMatcher.
      * split; [discriminate | intros Hm; inversion Hm; congruence].
      * rewrite atomMatches_separators, andb_true_iff, IH, negb_true_iff.
        split.
        -- intros [Hx Hk]. now constructor.
        -- intros Hm. inversion Hm; subst; [|congruence]. auto.
    + destruct (termOf_char c Hs Hq) as (a & -> & Ha).
      cbn [RegExp.matchTerms]. destruct k as [|x k]; unfold RegExp.atomMatcher.
      * split; [discriminate | intros Hm; inversion Hm; subst; congruence].
      * rewrite Ha, andb_true_iff, IH. split.
        -- intros [Hx Hk]. apply Ascii.eqb_eq in Hx as ->. now constructor.
        -- intros Hm. inversion Hm; subst; try congruence.
           split; [apply Ascii.eqb_refl | assumption].
Qed.

Lemma execFrom_AssertBegin (r : RegExp.t) (s : string) : forall i,
  RegExp.execFrom (RegExp.AssertBegin :: r) (S i) s = false.
Proof.
  induction s as [|c s IH]; intros i; simpl; [reflexivity|]. apply IH.
Qed.

Lemma test_AssertBegin (r : RegExp.t) (s : string) :
  RegExp.test (RegExp.AssertBegin :: r) s = RegExp.matchTerms r accept 0 s.
Proof.
  unfold RegExp.test. destruct s as [|c s]; simpl.
  - now rewrite orb_false_r.
  - now rewrite execFrom_AssertBegin, orb_false_r.
Qed.

(** The filter of a string key pattern decides the wildcard language. *)
Lemma filterByKey_string (p : string) :
  exists f, filterByKey (AValue (VString p)) = Ok f /\
            forall b, f b = true <-> wildcardMatches p (key b).
Proof.
  unfold filterByKey. rewrite wildcardToRegExp_terms.
  eexists. split; [reflexivity|]. intros b. cbv beta.
  rewrite test_AssertBegin. apply matchTerms_wildcard.
Qed.

(** A pattern without wildcard characters matches its own text only. *)
Lemma wildcardMatches_exact (p : string) : forall k,
  hasWildcard p = false -> (wildcardMatches p k <-> k = p).
Proof.
  induction p as [|c p IH]; intros k Hw.
  - split; [intros Hm; now inversion Hm | intros ->; constructor].
  - simpl in Hw. apply orb_false_iff in Hw as [Hc Hw].
    apply orb_false_iff in Hc as [Hs Hq].
    apply Ascii.eqb_neq in Hs, Hq. split.
    + intros Hm. inversion Hm; subst; try congruence.
      f_equal. now apply IH.
    + intros ->. constructor; try assumption. now apply IH.
Qed.

(** What [*] stands for never holds a separator: a key matched by a pattern
    with a [*] splits around a separator-free middle. *)
Lemma wildcardMatches_star_split (p1 p2 : string) : forall k,
  wildcardMatches (p1 +:+ String "*" p2) k ->
  exists a m z,
    k = a +:+ m +:+ z /\ wildcardMatches p1 a /\ noSeparator m = true /\
    wildcardMatches p2 z.
Proof.
  induction p1 as [|x p1 IH]; intros k Hm.
  - rewrite append_nil_l in Hm.
    inversion Hm as [ | p' k1 k2 Hn Hm' | | y p' k' Hy _ Hm']; subst;
      [|congruence].
    exists "", k1, k2. repeat split; try assumption. constructor.
  - rewrite append_cons in Hm.
    inversion Hm as [ | p' k1 k2 Hn Hm' | p' y k' Hy Hm' | y p' k' Hy Hy' Hm'];
      subst; destruct (IH _ Hm') as (a & m & z & -> & Ha & Hn' & Hz).
    + exists (k1 +:+ a), m, z. rewrite append_assoc.
      repeat split; try assumption. now constructor.
    + exists (String y a), m, z. repeat split; try assumption.
      now constructor.
    + exists (String x a), m, z. repeat split; try assumption.
      now constructor.
Qed.

(** ** Tag maps *)

Lemma matchTagValues_spec (ts : list string) (m : gmap string Value)
  (b : Binding) :
  matchTagValues ts m b = true <->
  forall t, t ∈ ts -> strictEq (getProp (tagMap b) t) (getProp m t) = true.
Proof.
  induction ts as [|t ts IH]; simpl.
  - split; [intros _ t Ht; inversion Ht | reflexivity].
  - unfold strictNe.
    destruct (strictEq (getProp (tagMap b) t) (getProp m t)) eqn:E; simpl.
    + rewrite IH. split.
      * intros Hts t' Ht'. apply elem_of_cons in Ht' as [-> | Ht']; auto.
      * intros Hts t' Ht'. apply Hts. now right.
    + split; [discriminate|]. intros Hts.
      rewrite <- E. apply Hts. now left.
Qed.

Lemma elem_of_keys (m : gmap string Value) (t : string) :
  t ∈ (map_to_list m).*1 <-> is_Some (m !! t).
Proof.
  rewrite list_elem_of_fmap. split.
  - intros ([t' v] & -> & Hin). apply elem_of_map_to_list in Hin. eauto.
  - intros [v Hv]. exists (t, v). split; [reflexivity|].
    now apply elem_of_map_to_list.
Qed.

(** On plain values [===] is equality. *)
Lemma strictEq_plain (a b : Value) :
  isPlain a = true -> (strictEq a b = true <-> a = b).
Proof.
  intros Ha. destruct a as [| |x|[|x]|x|x px]; try discriminate Ha;
    destruct b as [| |y|[|y]|y|y py]; simpl;
    try (split; [discriminate | intros E; discriminate E]);
    try (split; reflexivity).
  - rewrite Bool.eqb_true_iff. split; congruence.
  - rewrite Z.eqb_eq. split; congruence.
  - rewrite String.eqb_eq. split; congruence.
Qed.

(** [NaN] is not [===] to itself. *)
Lemma strictEq_NaN : strictEq (VNumber NaN) (VNumber NaN) = false.
Proof. reflexivity. Qed.

(** ** The resolvers *)

Section ResolverFacts.
Context `{Collaborators}.

Lemma assertTargetIsGetter_untyped (injection : Injection) :
  Inject.inspectTargetType injection = None ->
  Inject.assertTargetIsGetter injection = Ok tt.
Proof. unfold Inject.assertTargetIsGetter. now intros ->. Qed.

Lemma resolveAsSetter_untyped ctx injection session w k :
  Inject.inspectTargetType injection = None ->
  bindingSelector injection = Address k ->
  exists setter, Inject.resolveAsSetter ctx injection session w = (Ok (RSetter setter), w).
Proof.
  intros Ht Hs. unfold Inject.resolveAsSetter. rewrite Ht, Hs.
  eexists. reflexivity.
Qed.

Lemma resolveAsContextView_untyped ctx injection session w :
  Inject.inspectTargetType injection = None ->
  exists view w',
    Inject.resolveAsContextView ctx injection session w = (Ok (RView view), w').
Proof.
  intros Ht. unfold Inject.resolveAsContextView. rewrite Ht.
  eexists _, _. reflexivity.
Qed.

Lemma assertTargetIsArray_untyped (injection : Injection) :
  Inject.inspectTargetType injection = None ->
  Inject.assertTargetIsArray injection =
  Throw (TypeError "Cannot read property 'name' of undefined").
Proof. unfold Inject.assertTargetIsArray. now intros ->. Qed.

Lemma resolveValuesByFilter_untyped ctx injection session w :
  Inject.inspectTargetType injection = None ->
  Inject.resolveValuesByFilter ctx injection session w =
  (Throw (TypeError "Cannot read property 'name' of undefined"), w).
Proof.
  intros Ht. unfold Inject.resolveValuesByFilter.
  now rewrite (assertTargetIsArray_untyped _ Ht).
Qed.

(** A view made by [resolveAsViewFromConfig] has no [configPath], whatever
    the metadata of the injection says: its values are the resolved
    configuration values themselves. *)
Lemma resolveAsViewFromConfig_configPath ctx injection session w view w' :
  InjectConfig.resolveAsViewFromConfig ctx injection session w
    = (Ok (RConfigView view), w') ->
  configPath view = None /\
  forall s w1, InjectConfig.values view s w1 = ContextViewOps.values (super view) s w1.
Proof.
  unfold InjectConfig.resolveAsViewFromConfig, InjectConfig.getCurrentBindingKey.
  intros Hr.
  assert (configPath view = None) as Hc.
  { destruct (Inject.inspectTargetType injection) as [ty|];
      [destruct (decide (ty <> TContextView))|];
      destruct session as [s|]; try discriminate;
      cbv [mbind M_bind mret M_ret throw ResolutionSession.currentBinding] in Hr;
      match type of Hr with
      | context [InjectConfig.isFalsyKey ?k] =>
          destruct (InjectConfig.isFalsyKey k)
      end; try discriminate;
      cbv [ContextViewOps.open record] in Hr;
      injection Hr as <- _; reflexivity. }
  split; [assumption|]. intros s w1.
  unfold InjectConfig.values. rewrite Hc.
  cbv [mbind M_bind mret M_ret].
  destruct (ContextViewOps.values (super view) s w1) as [[vs|e] w2]; reflexivity.
Qed.

End ResolverFacts.

(** ** Worked examples *)

Example keyFilter_a_dot_star :
  keyFilter "a.*" "a.b" = Some true /\
  keyFilter "a.*" "a.b.c" = Some false /\
  keyFilter "a.*" "ab" = Some false.
Proof. repeat split; vm_compute; reflexivity. Qed.

Example keyFilter_question :
  keyFilter "a?c" "abc" = Some true /\
  keyFilter "a?c" "a:c" = Some false /\
  keyFilter "a?c" "ac" = Some false.
Proof. repeat split; vm_compute; reflexivity. Qed.

Example keyFilter_literal :
  keyFilter "a+b(c)[d]{e}^$|\-/:" "a+b(c)[d]{e}^$|\-/:" = Some true /\
  keyFilter "a.b" "axb" = Some false.
Proof. repeat split; vm_compute; reflexivity. Qed.

Example getDeepProperty_nested :
  let v := VObject 1 {[ "x" := VNumber (Int 1);
                        "y" := VObject 2 {[ "z" := VNumber (Int 2) ]} ]} in
  getDeepProperty v "y.z" = VNumber (Int 2) /\
  getDeepProperty v "" = v /\
  getDeepProperty v "y.q.r" = VUndefined.
Proof. repeat split; vm_compute; reflexivity. Qed.

Example inject_config_projects :
  exists spec resolver,
    @Inject.inject_config noReflection (Some "x") None storeTarget None
      (Some (ParameterIndex 0)) = Ok spec /\
    resolve spec = Some resolver /\
    (resolver 0 (injection spec) (Some 0) world1).1
      = Ok (RValue (VNumber (Int 1))).
Proof.
  eexists _, _. split; [reflexivity|]. split; [reflexivity|].
  vm_compute. reflexivity.
Qed.

(** ** The claims *)

(** C1 (the code departs from it). A scoped-configuration view injection
    declared with the path [x] on a binding configured with [{x: 1}]: the
    metadata records the path, yet the view that [resolveAsViewFromConfig]
    returns is built without it, and [values()] yields the whole
    configuration object [{x: 1}] instead of its projection [1]. *)
Theorem config_view_values_not_projected :
  exists spec resolver view w',
    @InjectConfig.config_view noReflection (Some "x") None
      storeTarget (Some "prop") None = Ok spec /\
    InjectionMetadata.configPath (metadata (injection spec)) = Some "x" /\
    resolve spec = Some resolver /\
    resolver 0 (injection spec) (Some 0) world1 = (Ok (RConfigView view), w') /\
    configPath view = None /\
    (InjectConfig.values view (Some 0) w').1 = Ok [storeConfig] /\
    getDeepProperty storeConfig "x" = VNumber (Int 1).
Proof.
  eexists _, _, _, _.
  split; [reflexivity|]. split; [reflexivity|]. split; [reflexivity|].
  split; [vm_compute; reflexivity|]. split; [reflexivity|].
  split; vm_compute; reflexivity.
Qed.

(** C2 (the code departs from it). Where the reflection reports no type,
    the array-valued filter resolver does not skip its check: it reads
    [targetType.name] of the absent type and throws. *)
Theorem resolveValuesByFilter_untyped_target (ctx : nat)
  (injection : Injection) (session : option nat) (w : World) :
  @Inject.inspectTargetType noReflection injection = None /\
  @Inject.resolveValuesByFilter noReflection ctx injection session w =
    (Throw (TypeError "Cannot read property 'name' of undefined"), w).
Proof.
  assert (@Inject.inspectTargetType noReflection injection = None) as Ht.
  { unfold Inject.inspectTargetType. simpl.
    destruct (methodDescriptorOrParameterIndex injection) as [[i|]|];
      reflexivity. }
  split; [assumption|]. now apply resolveValuesByFilter_untyped.
Qed.

(** C3 (as stated, false). [filterByKey(undefined)] throws nothing: it
    returns a filter. *)
Lemma filterByKey_undefined_returns_filter :
  malformedKeyPattern (AValue VUndefined) = true /\
  (exists f, filterByKey (AValue VUndefined) = Ok f) /\
  ~ (exists e, filterByKey (AValue VUndefined) = Throw e).
Proof.
  split; [reflexivity|]. split; [eexists; reflexivity|].
  intros [e He]. discriminate He.
Qed.

(** C3 (amended). For every input that is neither a string, nor a RegExp,
    nor a function, [filterByKey] returns the filter that accepts every
    binding. *)
Theorem filterByKey_malformed_accepts_all (keyPattern : Arg) :
  malformedKeyPattern keyPattern = true ->
  exists f, filterByKey keyPattern = Ok f /\ forall b, f b = true.
Proof.
  intros Hm. destruct keyPattern as [[| | | | |]| |]; try discriminate Hm;
    (eexists; split; [reflexivity | reflexivity]).
Qed.

Lemma filterByKey_malformed_accepts_all_witness :
  malformedKeyPattern (AValue (VNumber (Int 42))) = true /\
  exists f, filterByKey (AValue (VNumber (Int 42))) = Ok f /\
            forall b, f b = true.
Proof.
  split; [reflexivity|].
  apply (filterByKey_malformed_accepts_all (AValue (VNumber (Int 42)))).
  reflexivity.
Defined.

(** C4. For every string pattern [p], [filterByKey(p)] is a filter that
    accepts a binding iff its whole key matches [p] in the wildcard language
    ([*]: zero or more characters other than [.] and [:]; [?]: exactly one
    such character); in particular, wherever [p] has a [*], an accepted key
    splits around a middle without [.] or [:] that the [*] stands for. *)
Theorem filterByKey_wildcard (p : string) :
  exists f, filterByKey (AValue (VString p)) = Ok f /\
    (forall b, f b = true <-> wildcardMatches p (key b)) /\
    (forall p1 p2 b, p = p1 +:+ String "*" p2 -> f b = true ->
       exists a m z,
         key b = a +:+ m +:+ z /\ wildcardMatches p1 a /\
         noSeparator m = true /\ wildcardMatches p2 z).
Proof.
  destruct (filterByKey_string p) as (f & Hf & Hiff).
  exists f. split; [assumption|]. split; [assumption|].
  intros p1 p2 b -> Hb. apply wildcardMatches_star_split. now apply Hiff.
Qed.

(** C5. For every string pattern [p] without [*] and [?], [filterByKey(p)]
    is a filter that accepts exactly the bindings whose key is [p]. *)
Theorem filterByKey_exact (p : string) :
  hasWildcard p = false ->
  exists f, filterByKey (AValue (VString p)) = Ok f /\
            forall b, f b = true <-> key b = p.
Proof.
  intros Hw. destruct (filterByKey_string p) as (f & Hf & Hiff).
  exists f. split; [assumption|]. intros b.
  rewrite Hiff. now apply wildcardMatches_exact.
Qed.

Lemma filterByKey_exact_witness :
  hasWildcard "a.b+(c)$" = false /\
  exists f, filterByKey (AValue (VString "a.b+(c)$")) = Ok f /\
            forall b, f b = true <-> key b = "a.b+(c)$".
Proof.
  split; [reflexivity|]. apply (filterByKey_exact "a.b+(c)$"). reflexivity.
Defined.

(** C6. For every tag-value map [m], [filterByTag(m)] is a filter that
    accepts a binding [b] iff for every key [t] of [m] the value
    [b.tagMap[t]] equals ([===]) [m[t]]; two bindings whose tag maps agree
    on the keys of [m] get the same answer. *)
Theorem filterByTag_tag_map (addr : nat) (m : gmap string Value) :
  exists f, filterByTag (AValue (VObject addr m)) = Ok f /\
    (forall b, f b = true <->
       forall t, is_Some (m !! t) ->
         strictEq (getProp (tagMap b) t) (getProp m t) = true) /\
    (forall b b',
       (forall t, is_Some (m !! t) -> tagMap b !! t = tagMap b' !! t) ->
       f b = f b').
Proof.
  eexists. split; [reflexivity|].
  assert (forall b, matchTagValues (forInKeys (AValue (VObject addr m))) m b = true
          <-> forall t, is_Some (m !! t) ->
                strictEq (getProp (tagMap b) t) (getProp m t) = true) as Hiff.
  { intros b. rewrite matchTagValues_spec. unfold forInKeys. simpl.
    split; intros Hall t Ht; apply Hall; now apply elem_of_keys. }
  split; [exact Hiff|]. intros b b' Hagree. simpl ownProps.
  apply eq_true_iff_eq. rewrite !Hiff.
  split; intros Hall t Ht; specialize (Hall t Ht); unfold getProp in *;
    [rewrite <- (Hagree t Ht) | rewrite (Hagree t Ht)]; exact Hall.
Qed.

(** C7. For every injection whose selector is a filter function, the setter
    resolver and the raw-binding resolver throw at once, with the store
    untouched; neither returns a setter or a binding. *)
Theorem filter_selector_rejected `{Collaborators} (ctx : nat)
  (injection : Injection) (session : option nat) (w : World)
  (f : BindingFilter) :
  bindingSelector injection = Filter f ->
  (exists e, Inject.resolveAsSetter ctx injection session w = (Throw e, w)) /\
  (exists e, Inject.resolveAsBinding ctx injection session w = (Throw e, w)).
Proof.
  intros Hs. unfold Inject.resolveAsSetter, Inject.resolveAsBinding.
  rewrite Hs. split.
  - destruct (Inject.inspectTargetType injection) as [ty|];
      [destruct (decide (ty <> TFunction))|]; eexists; reflexivity.
  - destruct (Inject.inspectTargetType injection) as [ty|];
      [destruct (decide (ty <> TBinding))|]; eexists; reflexivity.
Qed.

Lemma filter_selector_rejected_witness :
  bindingSelector (propertyInjection (Filter (fun _ => true)))
    = Filter (fun _ => true) /\
  (exists e, @Inject.resolveAsSetter noReflection 0
               (propertyInjection (Filter (fun _ => true))) None world1
             = (Throw e, world1)) /\
  (exists e, @Inject.resolveAsBinding noReflection 0
               (propertyInjection (Filter (fun _ => true))) None world1
             = (Throw e, world1)).
Proof.
  split; [reflexivity|].
  apply (@filter_selector_rejected noReflection 0
           (propertyInjection (Filter (fun _ => true))) None world1
           (fun _ => true)).
  reflexivity.
Defined.

(** C8 (as stated, false). The [@config] resolver called with no session at
    all throws: it reads [session.currentBinding]. *)
Lemma config_resolver_without_session :
  @InjectConfig.resolveFromConfig noReflection 0
    (propertyInjection (Address "")) None world1 =
  (Throw (TypeError "Cannot read property 'currentBinding' of undefined"),
   world1).
Proof. reflexivity. Qed.

(** C8 (amended). For every scoped-configuration injection resolved with a
    session that has no current binding, the [@inject.config] resolver and
    the [@config] resolver both return [undefined]; with no session at all
    the [@inject.config] resolver returns [undefined] too. *)
Theorem resolveFromConfig_without_current_binding `{Collaborators}
  (ctx : nat) (injection : Injection) (s : nat) (w : World) :
  head (stackOf w s) = None ->
  Inject.resolveFromConfig ctx injection (Some s) w = (Ok (RValue VUndefined), w) /\
  InjectConfig.resolveFromConfig ctx injection (Some s) w
    = (Ok (RValue VUndefined), w) /\
  Inject.resolveFromConfig ctx injection None w = (Ok (RValue VUndefined), w).
Proof.
  unfold stackOf. intros Hs.
  unfold Inject.resolveFromConfig, InjectConfig.resolveFromConfig,
    InjectConfig.getCurrentBindingKey.
  cbv [mbind M_bind mret M_ret ResolutionSession.currentBinding].
  rewrite Hs. repeat split.
Qed.

Lemma resolveFromConfig_without_current_binding_witness :
  head (stackOf world1 1) = None /\
  @Inject.resolveFromConfig noReflection 0 (propertyInjection (Address ""))
     (Some 1) world1 = (Ok (RValue VUndefined), world1) /\
  @InjectConfig.resolveFromConfig noReflection 0
     (propertyInjection (Address "")) (Some 1) world1
    = (Ok (RValue VUndefined), world1) /\
  @Inject.resolveFromConfig noReflection 0 (propertyInjection (Address ""))
     None world1 = (Ok (RValue VUndefined), world1).
Proof.
  split; [reflexivity|].
  apply (@resolveFromConfig_without_current_binding noReflection 0
           (propertyInjection (Address "")) 1 world1).
  reflexivity.
Defined.

(** C9. For every address-selector getter injection, [resolveAsGetter]
    makes no call on the store and leaves its bindings as they are. Unless
    the getter check of the target throws, it only forks the session, and
    returns a closure which is the store's [get] on the address of the
    descriptor, with the forked session and the [optional] flag of the
    descriptor; each invocation of the closure makes that one call. *)
Theorem resolveAsGetter_deferred `{Collaborators} (ctx : nat)
  (injection : Injection) (session : option nat) (w : World) (k : string) :
  bindingSelector injection = Address k ->
  let '(r, w') := Inject.resolveAsGetter ctx injection session w in
  calls w' = calls w /\ contexts w' = contexts w /\
  match Inject.assertTargetIsGetter injection with
  | Throw e => r = Throw e /\ w' = w
  | Ok _ =>
      exists getter forked,
        r = Ok (RGetter getter) /\
        ResolutionSession.fork session w = (Ok forked, w') /\
        let opts :=
          {| session := forked;
             optional := InjectionMetadata.optional (metadata injection) |} in
        getter = Context.get ctx (Address k) opts /\
        forall w1,
          calls (getter w1).2 = calls w1 ++ [CallGet ctx (Address k) opts]
  end.
Proof.
  intros Hs. unfold Inject.resolveAsGetter. rewrite Hs.
  destruct (Inject.assertTargetIsGetter injection) as [[]|e];
    cbv [mbind M_bind mret M_ret liftResult]; [|repeat split].
  destruct (ResolutionSession.fork session w) as [r w'] eqn:Hf.
  assert (exists forked, r = Ok forked /\ calls w' = calls w /\
                         contexts w' = contexts w) as (forked & -> & Hc & Hx).
  { unfold ResolutionSession.fork in Hf. destruct session;
      injection Hf as <- <-; eexists; repeat split. }
  split; [assumption|]. split; [assumption|].
  eexists _, forked. split; [reflexivity|]. split; [reflexivity|].
  split; [reflexivity|].
  intros w1. unfold Context.get.
  cbv [mbind M_bind mret M_ret record getWorld throw registry].
  cbn [contexts calls].
  destruct (findByKey k _); [reflexivity|].
  destruct (default false _); reflexivity.
Qed.

Lemma resolveAsGetter_deferred_witness :
  bindingSelector (propertyInjection (Address "store1")) = Address "store1" /\
  exists getter,
    @Inject.resolveAsGetter noReflection 0
      (propertyInjection (Address "store1")) (Some 0) world1
    = (Ok (RGetter getter),
       {| contexts := contexts world1;
          sessions := sessions world1 ++ [[store1]];
          calls := [] |}) /\
    forall w1,
      calls (getter w1).2
      = calls w1 ++ [CallGet 0 (Address "store1")
                       {| session := Some 2; optional := None |}].
Proof.
  split; [reflexivity|].
  pose proof (@resolveAsGetter_deferred noReflection 0
                (propertyInjection (Address "store1")) (Some 0) world1
                "store1" eq_refl) as Hg.
  cbv beta iota zeta in Hg.
  destruct Hg as (_ & _ & getter & forked & Hr & Hf & Hg & Hcalls).
  injection Hf as <-.
  exists getter. split; [|exact Hcalls].
  rewrite Hg. vm_compute. reflexivity.
Defined.

(** C10. The resolver that [inject.context()] installs returns the context
    it is given, for every descriptor and session, and leaves the world as it
    is: no call on the store, no binding read. *)
Theorem inject_context_returns_context `{Collaborators} (target : Target)
  (member : option string)
  (index : option MethodDescriptorOrParameterIndex) (spec : InjectionSpec) :
  Inject.inject_context target member index = Ok spec ->
  exists resolver,
    resolve spec = Some resolver /\
    forall ctx injection session w,
      resolver ctx injection session w = (Ok (RContext ctx), w).
Proof.
  unfold Inject.inject_context, Inject.inject. intros Hd.
  assert (resolve spec = Some (fun ctx _ _ => mret (RContext ctx))) as Hr.
  { destruct index as [[n|]|]; [injection Hd as <-; reflexivity | |];
      destruct (Inject.isTruthyName member); try discriminate Hd;
      destruct (isClass target); try discriminate Hd;
      injection Hd as <-; reflexivity. }
  eexists. split; [exact Hr|]. reflexivity.
Qed.

Lemma inject_context_returns_context_witness :
  exists spec,
    @Inject.inject_context noReflection storeTarget None
      (Some (ParameterIndex 0)) = Ok spec /\
    exists resolver,
      resolve spec = Some resolver /\
      forall ctx injection session w,
        resolver ctx injection session w = (Ok (RContext ctx), w).
Proof.
  eexists. split; [reflexivity|].
  apply (@inject_context_returns_context noReflection storeTarget None
           (Some (ParameterIndex 0))).
  reflexivity.
Defined.

(** * Further properties *)

(** ** The wildcard language *)

Lemma wildcardMatches_app (p1 p2 : string) : forall k,
  wildcardMatches (p1 +:+ p2) k <->
  exists k1 k2,
    k = k1 +:+ k2 /\ wildcardMatches p1 k1 /\ wildcardMatches p2 k2.
Proof.
  induction p1 as [|c p1 IH]; intros k.
  - rewrite append_nil_l. split.
    + intros Hm. exists "", k. repeat split; [constructor | assumption].
    + intros (k1 & k2 & -> & H1 & H2). inversion H1; subst. assumption.
  - rewrite append_cons. split.
    + intros Hm.
      inversion Hm as [ | p' ka kb Hn Hm' | p' y k' Hy Hm' | y p' k' Hy Hy' Hm'];
        subst; apply IH in Hm' as (k1 & k2 & -> & H1 & H2).
      * exists (ka +:+ k1), k2. rewrite append_assoc.
        repeat split; [now constructor | assumption].
      * exists (String y k1), k2. repeat split; [now constructor | assumption].
      * exists (String c k1), k2. repeat split; [now constructor | assumption].
    + intros (k1 & k2 & -> & H1 & H2).
      inversion H1 as [ | p' ka kb Hn Hm' | p' y k' Hy Hm' | y p' k' Hy Hy' Hm'];
        subst; rewrite ?append_assoc, ?append_cons; constructor;
        try assumption; apply IH; eauto.
Qed.

Lemma wildcardMatches_one_star (k : string) :
  wildcardMatches "*" k <-> noSeparator k = true.
Proof.
  split.
  - intros Hm.
    inversion Hm as [ | p' ka kb Hn Hm' | | y p' k' Hy _ _]; subst;
      [|congruence].
    inversion Hm'; subst. clear -Hn.
    induction ka as [|c ka IH]; [reflexivity|].
    rewrite append_cons. simpl in *.
    apply andb_true_iff in Hn as [Hc Hn]. rewrite Hc. now apply IH.
  - intros Hn. assert (k = k +:+ "") as ->.
    { clear. induction k as [|c k IH]; [reflexivity|].
      now rewrite append_cons, <- IH. }
    constructor; [assumption | constructor].
Qed.

Lemma noSeparator_app (a b : string) :
  noSeparator (a +:+ b) = noSeparator a && noSeparator b.
Proof.
  induction a as [|c a IH]; [reflexivity|].
  rewrite append_cons. simpl. now rewrite IH, andb_assoc.
Qed.

Lemma wildcardMatches_two_stars (k : string) :
  wildcardMatches "**" k <-> wildcardMatches "*" k.
Proof.
  change "**" with ("*" +:+ "*"). rewrite wildcardMatches_app. split.
  - intros (k1 & k2 & -> & H1 & H2). apply wildcardMatches_one_star.
    apply wildcardMatches_one_star in H1, H2.
    now rewrite noSeparator_app, H1, H2.
  - intros Hm. exists "", k. repeat split; [|assumption].
    now apply wildcardMatches_one_star.
Qed.

Lemma separatorsOf_app (a b : string) :
  separatorsOf (a +:+ b) = separatorsOf a ++ separatorsOf b.
Proof.
  induction a as [|c a IH]; [reflexivity|].
  rewrite append_cons. simpl. destruct (isSeparator c); simpl; now rewrite IH.
Qed.

Lemma separatorsOf_noSeparator (k : string) :
  noSeparator k = true -> separatorsOf k = [].
Proof.
  induction k as [|c k IH]; [reflexivity|]. simpl.
  intros Hn. apply andb_true_iff in Hn as [Hc Hn].
  apply negb_true_iff in Hc. rewrite Hc. now apply IH.
Qed.

Lemma wildcardMatches_separators (p k : string) :
  wildcardMatches p k -> separatorsOf k = separatorsOf p.
Proof.
  induction 1 as [ | p k1 k2 Hn _ IH | p c k Hc _ IH | c p k _ _ _ IH].
  - reflexivity.
  - rewrite separatorsOf_app, (separatorsOf_noSeparator _ Hn). exact IH.
  - simpl. now rewrite Hc.
  - simpl. now rewrite IH.
Qed.

Lemma wildcardMatches_length (p k : string) :
  hasStar p = false -> wildcardMatches p k ->
  String.length k = String.length p.
Proof.
  intros Hs Hm. induction Hm as [ | p k1 k2 _ _ _ | p c k _ _ IH | c p k _ _ _ IH];
    simpl in *; try discriminate; try reflexivity.
  - f_equal. now apply IH.
  - apply orb_false_iff in Hs as [_ Hs]. f_equal. now apply IH.
Qed.

(** What [keyFilter] answers. *)
Lemma keyFilter_spec (p k : string) :
  exists a, keyFilter p k = Some a /\ (a = true <-> wildcardMatches p k).
Proof.
  unfold keyFilter. destruct (filterByKey_string p) as (f & -> & Hf).
  eexists. split; [reflexivity|]. apply (Hf (bindingOfKey k)).
Qed.

Lemma keyFilter_true (p k : string) :
  keyFilter p k = Some true <-> wildcardMatches p k.
Proof.
  destruct (keyFilter_spec p k) as (a & -> & Ha). rewrite <- Ha.
  split; congruence.
Qed.

Lemma keyFilter_ext (p q k : string) :
  (wildcardMatches p k <-> wildcardMatches q k) ->
  keyFilter p k = keyFilter q k.
Proof.
  intros Hpq. destruct (keyFilter_spec p k) as (a & -> & Ha).
  destruct (keyFilter_spec q k) as (b & -> & Hb).
  f_equal. apply eq_true_iff_eq. now rewrite Ha, Hb.
Qed.

(** The filter of a string tag pattern. *)
Lemma filterByTag_string (p : string) :
  exists f, filterByTag (AValue (VString p)) = Ok f /\
    forall b, f b = true <->
              exists t, is_Some (tagMap b !! t) /\ wildcardMatches p t.
Proof.
  unfold filterByTag. rewrite wildcardToRegExp_terms.
  eexists. split; [reflexivity|]. intros b. cbv beta.
  rewrite existsb_exists. unfold tagNames. split.
  - intros (t & Hin & Ht). exists t. split.
    + apply elem_of_keys. now apply list_elem_of_In.
    + rewrite test_AssertBegin in Ht. now apply matchTerms_wildcard in Ht.
  - intros (t & Hin & Ht). exists t. split.
    + apply list_elem_of_In. now apply elem_of_keys.
    + rewrite test_AssertBegin. now apply matchTerms_wildcard.
Qed.

(** ** The store *)

Lemma findByKey_updateValue (k : string) (value : Value) (bs : list Binding) :
  (exists b, b ∈ bs /\ key b = k) ->
  exists b', findByKey k (map (updateValue k value) bs) = Some b' /\
             boundValue b' = value.
Proof.
  unfold findByKey. induction bs as [|b bs IH]; intros (b0 & Hin & Hk).
  - inversion Hin.
  - destruct (String.eqb (key b) k) eqn:E.
    + assert (updateValue k value b =
              {| key := key b; tagMap := tagMap b; boundValue := value |})
        as Hu by (unfold updateValue; now rewrite E).
      cbn [map find]. rewrite Hu. cbn [key]. rewrite E.
      eexists. split; reflexivity.
    + assert (updateValue k value b = b) as Hu
        by (unfold updateValue; now rewrite E).
      cbn [map find]. rewrite Hu, E.
      apply IH. apply elem_of_cons in Hin as [-> | Hin]; [|eauto].
      apply String.eqb_neq in E. contradiction.
Qed.

Lemma findByKey_Some_elem (k : string) (bs : list Binding) (b : Binding) :
  findByKey k bs = Some b -> b ∈ bs /\ key b = k.
Proof.
  unfold findByKey. intros Hf. apply find_some in Hf as [Hin Hk].
  split; [now apply list_elem_of_In | now apply String.eqb_eq].
Qed.

Lemma registry_insert (ctx : nat) (bs : list Binding) (w : World) cs ss :
  ctx < length (contexts w) ->
  registry ctx {| contexts := <[ctx := bs]> (contexts w); sessions := ss;
                  calls := cs |} = bs.
Proof.
  intros Hlt. unfold registry. cbn [contexts].
  now rewrite list_lookup_insert_eq.
Qed.

Lemma insert_insert_same (ctx : nat) (a b : list Binding)
  (l : list (list Binding)) :
  <[ctx := a]> (<[ctx := b]> l) = <[ctx := a]> l.
Proof.
  revert ctx. induction l as [|x l IH]; intros [|ctx]; simpl; try reflexivity.
  now rewrite IH.
Qed.

Lemma get_bound (ctx : nat) (k : string) (opts : ResolutionOptions)
  (w : World) (b : Binding) :
  findByKey k (registry ctx w) = Some b ->
  Context.get ctx (Address k) opts w
  = (Ok (boundValue b), called (CallGet ctx (Address k) opts) w).
Proof.
  intros Hf. unfold Context.get.
  cbv [mbind M_bind mret M_ret record getWorld].
  change (registry ctx _) with (registry ctx w). now rewrite Hf.
Qed.

Lemma bindingTo_spec (ctx : nat) (k : string) (value : Value) (w : World) :
  Context.bindingTo ctx k value w =
  (Ok tt,
   {| contexts := <[ctx := map (updateValue k value) (registry ctx w)]>
                    (contexts w);
      sessions := sessions w; calls := calls w |}).
Proof. reflexivity. Qed.

(** After [binding.to(value)] on a bound key, the store gives [value]. *)
Lemma get_after_bindingTo (ctx : nat) (k : string) (value : Value) (w : World)
  (opts : ResolutionOptions) :
  ctx < length (contexts w) ->
  (exists b, b ∈ registry ctx w /\ key b = k) ->
  (Context.get ctx (Address k) opts (Context.bindingTo ctx k value w).2).1
  = Ok value.
Proof.
  intros Hlt Hb. rewrite bindingTo_spec. cbn [snd].
  destruct (findByKey_updateValue k value _ Hb) as (b' & Hf & Hv).
  erewrite get_bound.
  - cbn [fst]. now rewrite Hv.
  - rewrite registry_insert; assumption.
Qed.

Section SetterFacts.
Context `{Collaborators}.

Lemma resolveAsSetter_ok ctx injection k :
  bindingSelector injection = Address k ->
  Inject.inspectTargetType injection = None \/
  Inject.inspectTargetType injection = Some TFunction ->
  forall session w,
    Inject.resolveAsSetter ctx injection session w =
    (Ok (RSetter (fun value =>
                    binding ← Inject.findOrCreateBindingForInjection ctx injection;
                    Context.bindingTo ctx binding value)), w).
Proof.
  intros Hs Ht session w. unfold Inject.resolveAsSetter. rewrite Hs.
  destruct Ht as [-> | ->]; [reflexivity|].
  destruct (decide (TFunction <> TFunction)); [contradiction | reflexivity].
Qed.

(** The binding that [findOrCreateBindingForInjection] returns is in the
    store, under the key of the injection, unless the policy is
    [NEVER_CREATE] and the key is not bound. *)
Lemma findOrCreateBindingForInjection_bound ctx injection k w :
  bindingSelector injection = Address k ->
  ctx < length (contexts w) ->
  (InjectionMetadata.bindingCreation (metadata injection) = Some NEVER_CREATE ->
   is_Some (findByKey k (registry ctx w))) ->
  exists w1,
    Inject.findOrCreateBindingForInjection ctx injection w = (Ok k, w1) /\
    length (contexts w1) = length (contexts w) /\
    exists b, b ∈ registry ctx w1 /\ key b = k.
Proof.
  intros Hs Hlt Hnever.
  unfold Inject.findOrCreateBindingForInjection, Context.findOrCreateBinding.
  rewrite Hs.
  cbv [mbind M_bind mret M_ret record getWorld setRegistry throw].
  change (registry ctx {| contexts := contexts w; sessions := _; calls := _ |})
    with (registry ctx w).
  set (fresh := {| key := k; tagMap := ∅; boundValue := VUndefined |}).
  assert (forall bs cs,
            exists b,
              b ∈ registry ctx {| contexts := <[ctx := bs ++ [fresh]]> (contexts w);
                                  sessions := sessions w; calls := cs |}
              /\ key b = k) as Hfresh.
  { intros bs cs. exists fresh. rewrite registry_insert by assumption.
    split; [|reflexivity]. apply elem_of_app. right. now left. }
  destruct (findByKey k (registry ctx w)) as [b0|] eqn:Hf.
  - apply findByKey_Some_elem in Hf.
    destruct (InjectionMetadata.bindingCreation (metadata injection))
      as [[| |]|]; cbn [default]; eexists;
      (split; [reflexivity|]); cbn [contexts];
      rewrite ?length_insert; (split; [reflexivity|]);
      first [apply Hfresh | exists b0; exact Hf].
  - destruct (InjectionMetadata.bindingCreation (metadata injection))
      as [[| |]|]; cbn [default];
      try (destruct (Hnever eq_refl) as [? [=]]); eexists;
      (split; [reflexivity|]); cbn [contexts];
      rewrite ?length_insert; (split; [reflexivity|]); apply Hfresh.
Qed.

End SetterFacts.

Lemma findOrCreateBinding_calls (ctx : nat) (selector : BindingSelector)
  (policy : option BindingCreationPolicy) (w : World) :
  calls (Context.findOrCreateBinding ctx selector policy w).2
  = calls w ++ [CallFindOrCreateBinding ctx selector policy].
Proof.
  unfold Context.findOrCreateBinding.
  cbv [mbind M_bind mret M_ret record getWorld setRegistry throw].
  destruct selector as [k|f]; [|reflexivity].
  destruct (default CREATE_IF_NOT_BOUND policy);
    try destruct (findByKey k _); reflexivity.
Qed.

Lemma setter_calls `{Collaborators} (ctx : nat) (injection : Injection)
  (value : Value) (w : World) :
  calls ((binding ← Inject.findOrCreateBindingForInjection ctx injection;
          Context.bindingTo ctx binding value) w).2
  = calls w ++ [CallFindOrCreateBinding ctx (bindingSelector injection)
                  (InjectionMetadata.bindingCreation (metadata injection))].
Proof.
  unfold Inject.findOrCreateBindingForInjection.
  pose proof (findOrCreateBinding_calls ctx (bindingSelector injection)
                (InjectionMetadata.bindingCreation (metadata injection)) w)
    as Hc.
  cbv [mbind M_bind].
  destruct (Context.findOrCreateBinding _ _ _ w) as [[b|e] w1];
    cbn [snd] in *; [|exact Hc].
  rewrite bindingTo_spec. exact Hc.
Qed.

(** ** The decorators *)

Section DecoratorFacts.
Context `{Collaborators}.

(** The descriptor that [inject] records. *)
Lemma inject_recorded sel md r t m i spec :
  Inject.inject sel md r t m i = Ok spec ->
  injection spec =
    {| target := t; member := m; methodDescriptorOrParameterIndex := i;
       bindingSelector := sel;
       metadata := InjectionMetadata.assign (Inject.withDecorator "@inject") md |}
  /\ resolve spec =
     match sel, r with
     | Filter _, None => Some Inject.resolveValuesByFilter
     | _, _ => r
     end.
Proof.
  unfold Inject.inject. intros Hs.
  destruct i as [[n|]|]; [injection Hs as <-; auto | |];
    destruct (Inject.isTruthyName m); try discriminate Hs;
    destruct (isClass t); try discriminate Hs;
    injection Hs as <-; auto.
Qed.



End DecoratorFacts.

(** ** Further properties of the filters *)

(** X1. For every string tag pattern [p], [filterByTag(p)] is a filter that
    accepts a binding iff one of its tag names matches [p] as a whole in the
    wildcard language. *)
Theorem filterByTag_wildcard (p : string) :
  exists f, filterByTag (AValue (VString p)) = Ok f /\
    forall b, f b = true <->
              exists t, is_Some (tagMap b !! t) /\ wildcardMatches p t.
Proof.
  destruct (filterByTag_string p) as (f & Hf & Hiff).
  exists f. split; [exact Hf | exact Hiff].
Qed.

(** X2. For a tag name [p] without [*] and [?], [filterByTag(p)] accepts
    exactly the bindings that carry the tag [p]. *)
Theorem filterByTag_exact_name (p : string) :
  hasWildcard p = false ->
  exists f, filterByTag (AValue (VString p)) = Ok f /\
            forall b, f b = true <-> is_Some (tagMap b !! p).
Proof.
  intros Hw. destruct (filterByTag_string p) as (f & Hf & Hiff).
  exists f. split; [assumption|]. intros b. rewrite Hiff. split.
  - intros (t & Ht & Hm). apply wildcardMatches_exact in Hm; [|assumption].
    now subst t.
  - intros Hp. exists p. split; [assumption|].
    now apply wildcardMatches_exact.
Qed.

Lemma filterByTag_exact_name_witness :
  hasWildcard "authentication.strategy" = false /\
  exists f, filterByTag (AValue (VString "authentication.strategy")) = Ok f /\
            forall b, f b = true
                      <-> is_Some (tagMap b !! "authentication.strategy").
Proof.
  split; [reflexivity|].
  apply (filterByTag_exact_name "authentication.strategy"). reflexivity.
Defined.

(** X3. A tag pattern that is neither a string nor a RegExp and has no
    enumerable key (the empty object, [undefined], [null], a number) gives
    the filter that accepts every binding. *)
Theorem filterByTag_no_keys (tagPattern : Arg) :
  tagMapPattern tagPattern = true ->
  ownProps tagPattern = ∅ ->
  exists f, filterByTag tagPattern = Ok f /\ forall b, f b = true.
Proof.
  intros Hp He.
  assert (filterByTag tagPattern =
          Ok (fun b => matchTagValues (forInKeys tagPattern)
                         (ownProps tagPattern) b)) as ->.
  { destruct tagPattern as [[| | | | |]| |]; try discriminate Hp; reflexivity. }
  eexists. split; [reflexivity|]. intros b. cbv beta.
  unfold forInKeys. rewrite He, map_to_list_empty. reflexivity.
Qed.

Lemma filterByTag_no_keys_witness :
  tagMapPattern (AValue (VObject 7 ∅)) = true /\
  ownProps (AValue (VObject 7 ∅)) = ∅ /\
  exists f, filterByTag (AValue (VObject 7 ∅)) = Ok f /\ forall b, f b = true.
Proof.
  split; [reflexivity|]. split; [reflexivity|].
  apply (filterByTag_no_keys (AValue (VObject 7 ∅))); reflexivity.
Defined.

(** X4. A key accepted by [filterByKey(p)] has the separators of [p], the
    same ones in the same order: a wildcard never changes the depth of a
    key. *)
Theorem filterByKey_keeps_separators (p : string) :
  exists f, filterByKey (AValue (VString p)) = Ok f /\
    forall b, f b = true -> separatorsOf (key b) = separatorsOf p.
Proof.
  destruct (filterByKey_string p) as (f & Hf & Hiff).
  exists f. split; [assumption|]. intros b Hb.
  apply wildcardMatches_separators. now apply Hiff.
Qed.

(** X5. Patterns compose by concatenation: the filter of [p1 p2] accepts a
    key iff the key splits into a part the filter of [p1] accepts and a part
    the filter of [p2] accepts. *)
Theorem filterByKey_concat (p1 p2 k : string) :
  keyFilter (p1 +:+ p2) k = Some true <->
  exists k1 k2,
    k = k1 +:+ k2 /\ keyFilter p1 k1 = Some true /\
    keyFilter p2 k2 = Some true.
Proof.
  rewrite keyFilter_true, wildcardMatches_app. split;
    intros (k1 & k2 & -> & H1 & H2); exists k1, k2;
    (split; [reflexivity|]); split; now apply keyFilter_true.
Qed.

(** X6. Two [*] in a row are one [*]: anywhere in a pattern, [**] and [*]
    give filters with the same answer on every key. *)
Theorem filterByKey_double_star (p1 p2 k : string) :
  keyFilter (p1 +:+ "**" +:+ p2) k = keyFilter (p1 +:+ "*" +:+ p2) k.
Proof.
  apply keyFilter_ext. rewrite !wildcardMatches_app.
  split; intros (k1 & k23 & -> & H1 & H23); exists k1, k23;
    (split; [reflexivity|]); (split; [assumption|]);
    apply wildcardMatches_app in H23 as (k2 & k3 & -> & H2 & H3);
    apply wildcardMatches_app; exists k2, k3;
    (split; [reflexivity|]); (split; [|assumption]);
    now apply wildcardMatches_two_stars.
Qed.

(** X7. A pattern without [*] accepts only keys of its own length. *)
Theorem filterByKey_fixed_length (p : string) :
  hasStar p = false ->
  exists f, filterByKey (AValue (VString p)) = Ok f /\
    forall b, f b = true -> String.length (key b) = String.length p.
Proof.
  intros Hs. destruct (filterByKey_string p) as (f & Hf & Hiff).
  exists f. split; [assumption|]. intros b Hb.
  apply wildcardMatches_length; [assumption|]. now apply Hiff.
Qed.

Lemma filterByKey_fixed_length_witness :
  hasStar "repositories.?" = false /\
  exists f, filterByKey (AValue (VString "repositories.?")) = Ok f /\
    forall b, f b = true ->
              String.length (key b) = String.length "repositories.?".
Proof.
  split; [reflexivity|].
  apply (filterByKey_fixed_length "repositories.?"). reflexivity.
Defined.

(** ** Further properties of the decorators and resolvers *)

(** X8. Where [@inject] can be declared: the decorator records a descriptor
    iff it is applied to a parameter, or to a named, non-static member that
    is no method; everywhere else it throws. A recorded descriptor carries
    the target, member, index and selector it was declared with. *)
Theorem inject_declaration `{Collaborators} (bindingSelector0 : BindingSelector)
  (metadata0 : option InjectionMetadata.t) (resolve0 : option ResolverFunction)
  (target0 : Target) (member0 : option string)
  (index : option MethodDescriptorOrParameterIndex) :
  ((exists spec,
      Inject.inject bindingSelector0 metadata0 resolve0 target0 member0 index
      = Ok spec) <->
   (exists n, index = Some (ParameterIndex n)) \/
   (Inject.isTruthyName member0 = true /\ isClass target0 = false /\
    index = None)) /\
  (forall spec,
     Inject.inject bindingSelector0 metadata0 resolve0 target0 member0 index
     = Ok spec ->
     target (injection spec) = target0 /\
     member (injection spec) = member0 /\
     methodDescriptorOrParameterIndex (injection spec) = index /\
     bindingSelector (injection spec) = bindingSelector0).
Proof.
  unfold Inject.inject. split.
  - split.
    + intros [spec Hs]. destruct index as [[n|]|]; [left; eauto | |];
        right; destruct (Inject.isTruthyName member0); try discriminate Hs;
        destruct (isClass target0); try discriminate Hs; auto.
    + intros [[n ->] | (-> & -> & ->)]; eexists; reflexivity.
  - intros spec Hs.
    destruct index as [[n|]|]; [injection Hs as <-; auto | |];
      destruct (Inject.isTruthyName member0); try discriminate Hs;
      destruct (isClass target0); try discriminate Hs;
      injection Hs as <-; auto.
Qed.

(** X9. Where the reflected type of the target is present and is not
    [Function], the getter resolvers and the setter resolver throw the type
    error naming the target and its type, before any call on the store and
    whatever the selector is. *)
Theorem callable_type_mismatch `{Collaborators} (ctx : nat)
  (injection : Injection) (session : option nat) (w : World)
  (type : DesignType) :
  Inject.inspectTargetType injection = Some type ->
  type <> TFunction ->
  Inject.resolveAsGetter ctx injection session w
    = (Throw (Inject.notA injection type "a Getter function"), w) /\
  Inject.resolveAsGetterByFilter ctx injection session w
    = (Throw (Inject.notA injection type "a Getter function"), w) /\
  Inject.resolveAsSetter ctx injection session w
    = (Throw (Inject.notA injection type "a Setter function"), w).
Proof.
  intros Ht Hne.
  unfold Inject.resolveAsGetter, Inject.resolveAsGetterByFilter,
    Inject.resolveAsSetter, Inject.assertTargetIsGetter.
  rewrite Ht. destruct (decide (type <> TFunction)); [|contradiction].
  repeat split.
Qed.

Lemma callable_type_mismatch_witness :
  @Inject.inspectTargetType (typedReflection TArray)
    (propertyInjection (Address "k")) = Some TArray /\
  TArray <> TFunction /\
  @Inject.resolveAsGetter (typedReflection TArray) 0
    (propertyInjection (Address "k")) None world1
  = (Throw (Error "The type of Store.prop (Array) is not a Getter function"),
     world1).
Proof.
  split; [reflexivity|]. split; [discriminate|].
  apply (@callable_type_mismatch (typedReflection TArray) 0
           (propertyInjection (Address "k")) None world1 TArray);
    [reflexivity | discriminate].
Defined.

(** X10. Where the reflected type of the target is present and is not the
    one the strategy asks for, the raw-binding resolver ([Binding]), the two
    view resolvers ([ContextView]) and the array-valued filter resolver
    ([Array]) throw the type error before any call on the store. *)
Theorem handle_type_mismatch `{Collaborators} (ctx : nat)
  (injection : Injection) (session : option nat) (w : World)
  (type : DesignType) :
  Inject.inspectTargetType injection = Some type ->
  (type <> TBinding ->
   Inject.resolveAsBinding ctx injection session w
   = (Throw (Inject.notA injection type "Binding"), w)) /\
  (type <> TContextView ->
   Inject.resolveAsContextView ctx injection session w
   = (Throw (Inject.notA injection type "ContextView"), w) /\
   InjectConfig.resolveAsViewFromConfig ctx injection session w
   = (Throw (Inject.notA injection type "ContextView"), w)) /\
  (type <> TArray ->
   Inject.resolveValuesByFilter ctx injection session w
   = (Throw (Inject.notA injection type "Array"), w)).
Proof.
  intros Ht.
  unfold Inject.resolveAsBinding, Inject.resolveAsContextView,
    InjectConfig.resolveAsViewFromConfig, Inject.resolveValuesByFilter,
    Inject.assertTargetIsArray.
  rewrite Ht. repeat split.
  - destruct (decide (type <> TBinding)); [reflexivity | contradiction].
  - destruct (decide (type <> TContextView)); [reflexivity | contradiction].
  - destruct (decide (type <> TContextView)); [reflexivity | contradiction].
  - intros Hne.
    destruct (decide (Some type <> Some TArray)) as [_|Heq]; [reflexivity|].
    exfalso. apply Heq. intros [= E]. contradiction.
Qed.

Lemma handle_type_mismatch_witness :
  @Inject.inspectTargetType (typedReflection TFunction)
    (propertyInjection (Filter (fun _ => true))) = Some TFunction /\
  @Inject.resolveValuesByFilter (typedReflection TFunction) 0
    (propertyInjection (Filter (fun _ => true))) None world1
  = (Throw (Error "The type of Store.prop (Function) is not Array"), world1).
Proof.
  split; [reflexivity|].
  apply (@handle_type_mismatch (typedReflection TFunction) 0
           (propertyInjection (Filter (fun _ => true))) None world1 TFunction);
    [reflexivity | discriminate].
Defined.

(** X11. For an address selector and a target that passes the setter check,
    [resolveAsSetter] returns the same setter whatever the session and
    leaves the world as it is; each invocation of the setter makes exactly
    one call on the store, [findOrCreateBinding] on the address of the
    descriptor with the [bindingCreation] of its metadata. *)
Theorem resolveAsSetter_deferred `{Collaborators} (ctx : nat)
  (injection : Injection) (k : string) :
  bindingSelector injection = Address k ->
  Inject.inspectTargetType injection = None \/
  Inject.inspectTargetType injection = Some TFunction ->
  exists setter,
    (forall session w,
       Inject.resolveAsSetter ctx injection session w
       = (Ok (RSetter setter), w)) /\
    forall value w1,
      calls (setter value w1).2
      = calls w1 ++ [CallFindOrCreateBinding ctx (Address k)
                       (InjectionMetadata.bindingCreation (metadata injection))].
Proof.
  intros Hs Ht. eexists. split.
  - exact (resolveAsSetter_ok ctx injection k Hs Ht).
  - intros value w1. cbv beta. rewrite setter_calls. now rewrite Hs.
Qed.

Lemma resolveAsSetter_deferred_witness :
  exists setter,
    (forall session w,
       @Inject.resolveAsSetter noReflection 0
         (propertyInjection (Address "store1")) session w
       = (Ok (RSetter setter), w)) /\
    forall value w1,
      calls (setter value w1).2
      = calls w1 ++ [CallFindOrCreateBinding 0 (Address "store1") None].
Proof.
  apply (@resolveAsSetter_deferred noReflection 0
           (propertyInjection (Address "store1")) "store1");
    [reflexivity | left; reflexivity].
Defined.

(** X12. Setter round trip. For an address selector [k], a target that
    passes the setter check and a live context: unless the policy is
    [NEVER_CREATE] and [k] is not bound, invoking the setter with a value
    succeeds, and the store then gives that value for [k]. *)
Theorem setter_round_trip `{Collaborators} (ctx : nat) (injection : Injection)
  (session : option nat) (w : World) (k : string) :
  bindingSelector injection = Address k ->
  Inject.inspectTargetType injection = None \/
  Inject.inspectTargetType injection = Some TFunction ->
  ctx < length (contexts w) ->
  (InjectionMetadata.bindingCreation (metadata injection) = Some NEVER_CREATE ->
   is_Some (findByKey k (registry ctx w))) ->
  exists setter,
    Inject.resolveAsSetter ctx injection session w = (Ok (RSetter setter), w) /\
    forall value,
      exists w1,
        setter value w = (Ok tt, w1) /\
        forall opts, (Context.get ctx (Address k) opts w1).1 = Ok value.
Proof.
  intros Hs Ht Hlt Hnever. eexists. split.
  - exact (resolveAsSetter_ok ctx injection k Hs Ht session w).
  - intros value. cbv beta.
    destruct (findOrCreateBindingForInjection_bound ctx injection k w
                Hs Hlt Hnever) as (w1 & Hf & Hlen & Hb).
    cbv [mbind M_bind]. rewrite Hf.
    rewrite <- Hlen in Hlt.
    eexists. split; [apply bindingTo_spec|]. intros opts.
    exact (get_after_bindingTo ctx k value w1 opts Hlt Hb).
Qed.

Lemma setter_round_trip_witness :
  exists setter,
    @Inject.resolveAsSetter noReflection 0
      (propertyInjection (Address "current-user")) None world1
    = (Ok (RSetter setter), world1) /\
    forall value,
      exists w1,
        setter value world1 = (Ok tt, w1) /\
        forall opts,
          (Context.get 0 (Address "current-user") opts w1).1 = Ok value.
Proof.
  apply (@setter_round_trip noReflection 0
           (propertyInjection (Address "current-user")) None world1
           "current-user");
    [reflexivity | left; reflexivity | simpl; lia | discriminate].
Defined.

(** X13. The two scoped-configuration resolvers agree: with a session whose
    current binding, if any, has a non-empty key, [resolveFromConfig] of
    inject.ts and [resolveFromConfig] of inject-config.ts return the same
    result and leave the same world. *)
Theorem resolveFromConfig_agree `{Collaborators} (ctx : nat)
  (injection : Injection) (s : nat) (w : World) :
  (forall b, currentBindingOf w s = Some b -> key b <> "") ->
  Inject.resolveFromConfig ctx injection (Some s) w
  = InjectConfig.resolveFromConfig ctx injection (Some s) w.
Proof.
  unfold currentBindingOf, stackOf. intros Hk.
  unfold Inject.resolveFromConfig, InjectConfig.resolveFromConfig,
    InjectConfig.getCurrentBindingKey.
  cbv [mbind M_bind mret M_ret ResolutionSession.currentBinding].
  destruct (head (default [] (sessions w !! s))) as [b|]; [|reflexivity].
  specialize (Hk b eq_refl). cbn [fmap option_fmap option_map].
  unfold InjectConfig.isFalsyKey.
  destruct (key b) as [|c k]; [contradiction | reflexivity].
Qed.

Lemma resolveFromConfig_agree_witness :
  (forall b, currentBindingOf world1 0 = Some b -> key b <> "") /\
  @Inject.resolveFromConfig noReflection 0
    (propertyInjection (Address "")) (Some 0) world1
  = @InjectConfig.resolveFromConfig noReflection 0
      (propertyInjection (Address "")) (Some 0) world1.
Proof.
  assert (forall b, currentBindingOf world1 0 = Some b -> key b <> "") as Hk.
  { intros b [= <-]. discriminate. }
  split; [exact Hk|].
  exact (@resolveFromConfig_agree noReflection 0
           (propertyInjection (Address "")) 0 world1 Hk).
Defined.

(** X14. The resolvers of inject-config.ts take a current binding whose key
    is the empty string for no binding at all: [resolveFromConfig] returns
    [undefined] and makes no call on the store, where [resolveFromConfig] of
    inject.ts asks the store for the configuration of the empty key. *)
Theorem config_empty_key `{Collaborators} (ctx : nat) (injection : Injection)
  (s : nat) (w : World) (b : Binding) :
  currentBindingOf w s = Some b ->
  key b = "" ->
  InjectConfig.resolveFromConfig ctx injection (Some s) w
    = (Ok (RValue VUndefined), w) /\
  calls (Inject.resolveFromConfig ctx injection (Some s) w).2
    = calls w ++
      [CallGetConfig ctx ""
         (InjectionMetadata.configPath (metadata injection))
         {| session := Some s;
            optional := InjectionMetadata.optional (metadata injection) |}].
Proof.
  unfold currentBindingOf, stackOf. intros Hb Hk.
  unfold Inject.resolveFromConfig, InjectConfig.resolveFromConfig,
    InjectConfig.getCurrentBindingKey, Inject.getConfigAsValueOrPromise.
  cbv [mbind M_bind mret M_ret ResolutionSession.currentBinding record
       getWorld throw].
  rewrite Hb. cbn [fmap option_fmap option_map]. rewrite Hk.
  split; [reflexivity|].
  destruct (findByKey _ _); [reflexivity|].
  destruct (default true _); reflexivity.
Qed.

Lemma config_empty_key_witness :
  let w := {| contexts := [[bindingOfKey ""]];
              sessions := [[bindingOfKey ""]]; calls := [] |} in
  currentBindingOf w 0 = Some (bindingOfKey "") /\
  @InjectConfig.resolveFromConfig noReflection 0
    (propertyInjection (Address "")) (Some 0) w
  = (Ok (RValue VUndefined), w).
Proof.
  intros w. split; [reflexivity|].
  apply (@config_empty_key noReflection 0 (propertyInjection (Address ""))
           0 w (bindingOfKey "")); reflexivity.
Defined.

(** X15. [resolveAsGetterFromConfig] makes no call on the store: it forks
    the session and returns a getter. The key of the current binding is read
    when the getter is made: with no current binding (or one of empty key)
    every invocation gives [undefined] and leaves the world alone; otherwise
    the getter is the store's configuration lookup for that key, with the
    path and [optional] flag of the metadata and the forked session. *)
Theorem resolveAsGetterFromConfig_deferred `{Collaborators} (ctx : nat)
  (injection : Injection) (s : nat) (w : World) :
  exists getter forked w',
    InjectConfig.resolveAsGetterFromConfig ctx injection (Some s) w
      = (Ok (RGetter getter), w') /\
    ResolutionSession.fork (Some s) w = (Ok forked, w') /\
    calls w' = calls w /\ contexts w' = contexts w /\
    match currentBindingOf w s with
    | Some b =>
        if isEmptyString (key b)
        then forall w1, getter w1 = (Ok VUndefined, w1)
        else getter =
             Inject.getConfigAsValueOrPromise ctx (key b)
               (InjectionMetadata.configPath (metadata injection))
               {| session := forked;
                  optional := InjectionMetadata.optional (metadata injection) |}
    | None => forall w1, getter w1 = (Ok VUndefined, w1)
    end.
Proof.
  unfold currentBindingOf, stackOf.
  unfold InjectConfig.resolveAsGetterFromConfig,
    InjectConfig.getCurrentBindingKey.
  cbv [mbind M_bind mret M_ret ResolutionSession.currentBinding
       ResolutionSession.fork].
  eexists _, _, _. split; [reflexivity|]. split; [reflexivity|].
  split; [reflexivity|]. split; [reflexivity|].
  destruct (head (default [] (sessions w !! s))) as [b|];
    [|intros w1; reflexivity].
  cbn [fmap option_fmap option_map]. unfold InjectConfig.isFalsyKey.
  destruct (key b); [intros w1|]; reflexivity.
Qed.

(** X16. For a target that passes the view check, [resolveAsViewFromConfig]
    returns [undefined], with the world as it is, when the session has no
    current binding (or one of empty key); otherwise it subscribes to the
    context and returns a view over it whose filter accepts exactly the
    bindings under the configuration key of the current binding. *)
Theorem resolveAsViewFromConfig_view `{Collaborators} (ctx : nat)
  (injection : Injection) (s : nat) (w : World) :
  Inject.inspectTargetType injection = None \/
  Inject.inspectTargetType injection = Some TContextView ->
  match currentBindingOf w s with
  | Some b =>
      if isEmptyString (key b)
      then InjectConfig.resolveAsViewFromConfig ctx injection (Some s) w
           = (Ok (RValue VUndefined), w)
      else
        exists view f,
          InjectConfig.resolveAsViewFromConfig ctx injection (Some s) w
          = (Ok (RConfigView view), called (CallSubscribe ctx) w) /\
          super view = {| viewContext := ctx; viewFilter := Filter f |} /\
          forall b', f b' = true <-> key b' = buildKeyForConfig (key b)
  | None =>
      InjectConfig.resolveAsViewFromConfig ctx injection (Some s) w
      = (Ok (RValue VUndefined), w)
  end.
Proof.
  unfold currentBindingOf, stackOf. intros Ht.
  unfold InjectConfig.resolveAsViewFromConfig,
    InjectConfig.getCurrentBindingKey.
  assert ((match Inject.inspectTargetType injection with
           | Some targetType =>
               if decide (targetType <> TContextView)
               then throw (Inject.notA injection targetType "ContextView")
               else mret tt
           | None => mret tt
           end) w = (Ok tt, w)) as Hcheck.
  { destruct Ht as [-> | ->]; [reflexivity|].
    destruct (decide (TContextView <> TContextView));
      [contradiction | reflexivity]. }
  cbv [mbind M_bind]. rewrite Hcheck.
  cbv [mret M_ret ResolutionSession.currentBinding].
  destruct (head (default [] (sessions w !! s))) as [b|]; [|reflexivity].
  cbn [fmap option_fmap option_map]. unfold InjectConfig.isFalsyKey.
  destruct (isEmptyString (key b)); [reflexivity|].
  eexists _, _. split; [reflexivity|]. split; [reflexivity|].
  intros b'. cbv beta. cbn [default]. apply String.eqb_eq.
Qed.

Lemma resolveAsViewFromConfig_view_witness :
  exists view f,
    @InjectConfig.resolveAsViewFromConfig noReflection 0
      (propertyInjection (Address "")) (Some 0) world1
    = (Ok (RConfigView view), called (CallSubscribe 0) world1) /\
    super view = {| viewContext := 0; viewFilter := Filter f |} /\
    forall b', f b' = true <-> key b' = "store1:$config".
Proof.
  exact (@resolveAsViewFromConfig_view noReflection 0
           (propertyInjection (Address "")) 0 world1 (or_introl eq_refl)).
Defined.

(** X17. [@inject.tag(p)] for a string [p] records a filter selector that
    accepts exactly the bindings with a tag name matching [p], resolved by
    the array-valued filter resolver. *)
Theorem inject_tag_descriptor `{Collaborators} (p : string)
  (md : option InjectionMetadata.t) :
  exists decorator,
    Inject.inject_tag (AValue (VString p)) md = Ok decorator /\
    forall t m i spec,
      decorator t m i = Ok spec ->
      resolve spec = Some Inject.resolveValuesByFilter /\
      exists f,
        bindingSelector (injection spec) = Filter f /\
        forall b, f b = true <->
                  exists name, is_Some (tagMap b !! name) /\
                               wildcardMatches p name.
Proof.
  unfold Inject.inject_tag.
  destruct (filterByTag_string p) as (f & -> & Hiff).
  eexists. split; [reflexivity|]. intros t m i spec Hs.
  apply inject_recorded in Hs as [Hi Hr]. split; [exact Hr|].
  exists f. split; [now rewrite Hi | exact Hiff].
Qed.



(** X19. For an address selector [k], a target that passes the binding
    check and a live context, [resolveAsBinding] returns the handle of [k]
    in that context, and [k] is then bound there, unless the policy of the
    metadata is [NEVER_CREATE] and [k] is not bound: then it throws the
    store's not-found error and the bindings stay as they were. *)
Theorem resolveAsBinding_bound `{Collaborators} (ctx : nat)
  (injection : Injection) (session : option nat) (w : World) (k : string) :
  bindingSelector injection = Address k ->
  Inject.inspectTargetType injection = None \/
  Inject.inspectTargetType injection = Some TBinding ->
  ctx < length (contexts w) ->
  match InjectionMetadata.bindingCreation (metadata injection),
        findByKey k (registry ctx w) with
  | Some NEVER_CREATE, None =>
      exists w1,
        Inject.resolveAsBinding ctx injection session w
        = (Throw (Context.notBound k), w1) /\
        contexts w1 = contexts w
  | _, _ =>
      exists w1,
        Inject.resolveAsBinding ctx injection session w
        = (Ok (RBinding ctx k), w1) /\
        exists b, b ∈ registry ctx w1 /\ key b = k
  end.
Proof.
  intros Hs Ht Hlt.
  assert (Inject.resolveAsBinding ctx injection session w =
          (binding ← Inject.findOrCreateBindingForInjection ctx injection;
           mret (RBinding ctx binding)) w) as ->.
  { unfold Inject.resolveAsBinding. rewrite Hs.
    destruct Ht as [-> | ->]; [reflexivity|].
    destruct (decide (TBinding <> TBinding)); [contradiction | reflexivity]. }
  cbv [mbind M_bind mret M_ret].
  destruct (InjectionMetadata.bindingCreation (metadata injection))
    as [policy|] eqn:Hp;
    [destruct policy|];
    destruct (findByKey k (registry ctx w)) as [b0|] eqn:Hf;
    try (destruct (findOrCreateBindingForInjection_bound ctx injection k w
                     Hs Hlt) as (w1 & -> & _ & Hb);
         [rewrite Hp; first [discriminate | intros _; rewrite Hf; eauto]
         | exists w1; split; [reflexivity | exact Hb]]).
  unfold Inject.findOrCreateBindingForInjection, Context.findOrCreateBinding.
  rewrite Hs, Hp.
  cbv [mbind M_bind mret M_ret record getWorld throw].
  change (registry ctx {| contexts := contexts w; sessions := _; calls := _ |})
    with (registry ctx w).
  rewrite Hf. cbn [default]. eexists. split; reflexivity.
Qed.

Lemma resolveAsBinding_bound_witness :
  exists w1,
    @Inject.resolveAsBinding noReflection 0
      (propertyInjection (Address "current-user")) None world1
    = (Ok (RBinding 0 "current-user"), w1) /\
    exists b, b ∈ registry 0 w1 /\ key b = "current-user".
Proof.
  exact (@resolveAsBinding_bound noReflection 0
           (propertyInjection (Address "current-user")) None world1
           "current-user" eq_refl (or_introl eq_refl)
           (Nat.lt_0_succ 0)).
Defined.
